(** * Study-Sync: the SQL block extractor (extract.py)

    A shallow embedding of the one script of the repository.  The script
    reads a Markdown file, scans its lines for the first fenced block
    opened by a line that strips to [```sql], collects the lines up to the
    next line that strips to [```], and writes them to a migration file,
    creating the directories on the way.

    Text is modelled as Python sees it: a [str] is a sequence of Unicode
    code points.  A file of the model holds the characters its bytes
    stand for, a byte that is no text in the encoding being kept as a
    surrogate escape; reading in text mode refuses such a byte, turns
    every line ending into a line feed, and cuts the text after every
    line feed. *)

From Stdlib Require Import NArith String Ascii.
From stdpp Require Import base tactics option list strings countable gmap fin_maps.

Open Scope N_scope.
Open Scope list_scope.

(** ** Text *)

(** A Python [str]: a sequence of code points. *)
Abbreviation str := (list N).

(** A literal of the source, character by character. *)
Definition lit (s : string) : str :=
  N_of_ascii <$> list_ascii_of_string s.

Definition LF : N := 10.

(** [str.isspace] on one code point, the table of CPython's
    [_PyUnicode_IsWhitespace]. *)
Definition isspace (c : N) : bool :=
  ((9 <=? c) && (c <=? 13)) || ((28 <=? c) && (c <=? 32))
  || (c =? 133) || (c =? 160) || (c =? 5760)
  || ((8192 <=? c) && (c <=? 8202))
  || (c =? 8232) || (c =? 8233) || (c =? 8239) || (c =? 8287)
  || (c =? 12288).

Fixpoint lstrip (s : str) : str :=
  match s with
  | c :: s' => if isspace c then lstrip s' else s
  | [] => []
  end.

Definition rstrip (s : str) : str := reverse (lstrip (reverse s)).

(** [s.strip()] with no argument. *)
Definition strip (s : str) : str := rstrip (lstrip s).

(** ** The scan (lines 6 to 15 of extract.py) *)

Definition opening : str := lit "```sql".
Definition closing : str := lit "```".

(** The two variables of the loop. *)
Record scan_state := ScanState { in_sql : bool; sql : list str }.

Definition scan_init : scan_state := ScanState false [].

(** What one pass through the loop body asks for. *)
Inductive control := Continue (st : scan_state) | Break (st : scan_state).

(** The body of [for line in lines], test by test. *)
Definition body (st : scan_state) (line : str) : control :=
  if bool_decide (strip line = opening) then
    Continue (ScanState true (sql st))
  else if in_sql st && bool_decide (strip line = closing) then
    Break st
  else if in_sql st then
    Continue (ScanState (in_sql st) (sql st ++ [line]))
  else
    Continue st.

Fixpoint for_loop (lines : list str) (st : scan_state) : scan_state :=
  match lines with
  | [] => st
  | line :: rest =>
      match body st line with
      | Continue st' => for_loop rest st'
      | Break st' => st'
      end
  end.

(** The list [sql] when the loop is over. *)
Definition scan (lines : list str) : list str := sql (for_loop lines scan_init).

Definition example_lines : list str :=
  [ lit "# Title" ++ [LF];
    lit "```sql" ++ [LF];
    lit "CREATE TABLE t (id INT);" ++ [LF];
    lit "```" ++ [LF];
    lit "trailing text" ++ [LF] ].


(** Lines that are kept when the loop is inside the block. *)
Definition kept (lines : list str) : list str :=
  filter (λ line, strip line ≠ opening) lines.

(** ** Reading and writing lines *)

(** The lines of a text as [f.readlines()] cuts them: after every line
    feed; the last line keeps whatever it ends with. *)
Fixpoint readlines (s : str) : list str :=
  match s with
  | [] => []
  | c :: s' =>
      if c =? LF then [c] :: readlines s'
      else match readlines s' with
           | [] => [[c]]
           | l :: ls => (c :: l) :: ls
           end
  end.

(** A finished line: no line feed but the one that ends it. *)
Definition ended (l : str) : Prop := ∃ t, (LF ∉ t) ∧ l = t ++ [LF].

(** The shape of what [readlines] returns: finished lines, and possibly
    a last one that the end of the text cut short. *)
Inductive lines_wf : list str → Prop :=
  | lines_wf_nil : lines_wf []
  | lines_wf_last l : l ≠ [] → LF ∉ l → lines_wf [l]
  | lines_wf_cons l ls : ended l → lines_wf ls → lines_wf (l :: ls).

(** The line endings that text mode reads as one line feed
    ([newline=None]): a carriage return with its line feed, or alone. *)
Definition CR : N := 13.

Fixpoint universal_newlines (s : str) : str :=
  match s with
  | [] => []
  | c :: s' =>
      if c =? CR then
        LF :: match s' with
              | c' :: s'' =>
                  if c' =? LF then universal_newlines s''
                  else universal_newlines s'
              | [] => []
              end
      else c :: universal_newlines s'
  end.

(** A byte that is no text in the encoding, as the characters of a
    file keep it: one of the escapes U+DC80 to U+DCFF. *)
Definition is_escape (c : N) : bool := (56448 <=? c) && (c <=? 56575).

(** Strict decoding, the default of [open]: no escape is let through. *)
Definition decodes (raw : str) : bool := forallb (λ c, negb (is_escape c)) raw.

(** The text that text mode yields for the characters of a file. *)
Definition text_of (raw : str) : option str :=
  if decodes raw then Some (universal_newlines raw) else None.

(** ** The file system *)

(** An absolute path: the root, or a name under a parent. *)
Inductive path := Root | Sub (parent : path) (name : string).

Declare Scope path_scope.
Delimit Scope path_scope with path.
Bind Scope path_scope with path.
Infix "/" := Sub : path_scope.

#[global] Instance path_eq_dec : EqDecision path.
Proof. solve_decision. Defined.

Fixpoint path_names (p : path) : list string :=
  match p with
  | Root => []
  | Sub parent name => name :: path_names parent
  end.

Fixpoint path_of_names (l : list string) : path :=
  match l with
  | [] => Root
  | name :: l' => Sub (path_of_names l') name
  end.

#[global] Instance path_countable : Countable path.
Proof.
  refine (inj_countable' path_names path_of_names _).
  intros p. induction p; simpl; congruence.
Defined.

(** What a path leads to.  A directory can be closed to new entries, a
    file to reading or to writing. *)
Inductive node :=
  | Dir (writable : bool)
  | File (readable writable : bool) (data : str).

#[global] Instance node_eq_dec : EqDecision node.
Proof. solve_decision. Defined.

(** What the script can touch: the file system and standard output. *)
Record world := World { files : gmap path node; stdout : list string }.

(** The subclasses of [OSError] that opening and creating can raise,
    and the path they report ([e.filename]). *)
Inductive os_error_kind :=
  | FileNotFoundError
  | PermissionError
  | IsADirectoryError
  | NotADirectoryError
  | FileExistsError.

Record OSError := mkOSError { kind : os_error_kind; filename : path }.

#[global] Instance os_error_kind_eq_dec : EqDecision os_error_kind.
Proof. solve_decision. Defined.

(** ** Statements that act on the world and may raise *)

(** How a statement ends: with a value, with an [OSError], or with a
    [UnicodeDecodeError], which is no [OSError] and which no handler of
    the script or of [makedirs] catches. *)
Inductive result (A : Type) :=
  | Ok (a : A)
  | Raise (e : OSError)
  | RaiseUnicodeDecodeError.
Arguments Ok {A} a.
Arguments Raise {A} e.
Arguments RaiseUnicodeDecodeError {A}.

Definition io (A : Type) : Type := world → result A * world.

#[global] Instance io_ret : MRet io := λ A a w, (Ok a, w).

#[global] Instance io_bind : MBind io := λ A B k m w,
  match m w with
  | (Ok a, w') => k a w'
  | (Raise e, w') => (Raise e, w')
  | (RaiseUnicodeDecodeError, w') => (RaiseUnicodeDecodeError, w')
  end.

(** [raise e], and the error the system calls build. *)
Definition throw {A} (e : OSError) : io A := λ w, (Raise e, w).

Definition raise {A} (k : os_error_kind) (p : path) : io A :=
  throw (mkOSError k p).

(** [try: m  except OSError as e: handler e]. *)
Definition try_except {A} (m : io A) (handler : OSError → io A) : io A :=
  λ w, match m w with
       | (Ok a, w') => (Ok a, w')
       | (Raise e, w') => handler e w'
       | (RaiseUnicodeDecodeError, w') => (RaiseUnicodeDecodeError, w')
       end.

Definition set_files (f : gmap path node → gmap path node) (w : world) : world :=
  World (f (files w)) (stdout w).

(** [os.path.exists] and [os.path.isdir]. *)
Definition path_exists (p : path) : io bool :=
  λ w, (Ok (bool_decide (is_Some (files w !! p))), w).

Definition isdir (fs : gmap path node) (p : path) : bool :=
  match fs !! p with Some (Dir _) => true | _ => false end.

Definition path_isdir (p : path) : io bool :=
  λ w, (Ok (isdir (files w) p), w).

(** Why a path with no entry cannot be reached: a regular file stands
    on the way to it ([ENOTDIR]), or a name is missing ([ENOENT]). *)
Fixpoint missing (fs : gmap path node) (p : path) : os_error_kind :=
  match p with
  | Root => FileNotFoundError
  | Sub parent _ =>
      match fs !! parent with
      | Some (File _ _ _) => NotADirectoryError
      | Some (Dir _) => FileNotFoundError
      | None => missing fs parent
      end
  end.

(** [os.mkdir]: the parent must be a directory open to new entries and
    the path itself free; the new directory is open, as the usual umask
    leaves it for its owner. *)
Definition mkdir (p : path) : io unit :=
  match p with
  | Root => raise FileExistsError p
  | Sub parent _ => λ w,
      match files w !! parent with
      | None => raise (missing (files w) p) p w
      | Some (File _ _ _) => raise NotADirectoryError p w
      | Some (Dir wr) =>
          match files w !! p with
          | Some _ => raise FileExistsError p w
          | None =>
              if wr then (Ok (), set_files <[p := Dir true]> w)
              else raise PermissionError p w
          end
      end
  end.

(** [os.makedirs(name, exist_ok=exist_ok)], as the library writes it:
    make the head first when it is missing, then the leaf, and let an
    error of [mkdir] pass when the directory is there and [exist_ok]. *)
Fixpoint makedirs (name : path) (exist_ok : bool) : io unit :=
  match name return io unit with
  | Root => mret ()
  | Sub head _ =>
      path_exists head ≫= λ e : bool,
      if e then mret ()
      else try_except (makedirs head exist_ok)
             (λ err, if bool_decide (kind err = FileExistsError) then mret ()
                     else throw err)
  end;;
  try_except (mkdir name)
    (λ err, path_isdir name ≫= λ d : bool,
            if negb exist_ok || negb d then throw err else mret ()).

(** The last statement of [makedirs] when [exist_ok] is set. *)
Definition leaf (d : path) : io unit :=
  try_except (mkdir d)
    (λ err, path_isdir d ≫= λ b : bool,
            if negb true || negb b then throw err else mret ()).

(** [open(p, 'r')]: the handle is modelled by the characters of the
    file, not read yet. *)
Definition open_r (p : path) : io str := λ w,
  match files w !! p with
  | Some (File true _ data) => (Ok data, w)
  | Some (File false _ _) => raise PermissionError p w
  | Some (Dir _) => raise IsADirectoryError p w
  | None => raise (missing (files w) p) p w
  end.

(** [f.readlines()] on a handle opened for reading in text mode: the
    characters are decoded, which can raise, the line endings are
    translated, and the text is cut into lines. *)
Definition f_readlines (f : str) : io (list str) := λ w,
  match text_of f with
  | Some text => (Ok (readlines text), w)
  | None => (RaiseUnicodeDecodeError, w)
  end.

(** [open(p, 'w')]: an existing file is emptied, a missing one is made
    in its directory, open to its owner under the usual umask; the
    handle is the path. *)
Definition open_w (p : path) : io path := λ w,
  match files w !! p with
  | Some (File r true _) => (Ok p, set_files <[p := File r true []]> w)
  | Some (File _ false _) => raise PermissionError p w
  | Some (Dir _) => raise IsADirectoryError p w
  | None =>
      match p with
      | Root => raise IsADirectoryError p w
      | Sub parent _ =>
          match files w !! parent with
          | Some (Dir true) => (Ok p, set_files <[p := File true true []]> w)
          | Some (Dir false) => raise PermissionError p w
          | Some (File _ _ _) => raise NotADirectoryError p w
          | None => raise (missing (files w) p) p w
          end
      end
  end.

Definition append_data (s : str) (n : node) : node :=
  match n with
  | File r wr data => File r wr (data ++ s)
  | Dir wr => Dir wr
  end.

(** [f.write(s)] on a handle opened for writing in text mode: on the
    POSIX system the paths of the script belong to, a line feed is
    written as it is. *)
Definition write (f : path) (s : str) : io unit :=
  λ w, (Ok (), set_files (alter (append_data s) f) w).

(** [f.writelines(lines)]: one [write] per line, nothing in between. *)
Fixpoint writelines (f : path) (lines : list str) : io unit :=
  match lines with
  | [] => mret ()
  | line :: rest => write f line;; writelines f rest
  end.

Definition print (s : string) : io unit :=
  λ w, (Ok (), World (files w) (stdout w ++ [s])).

(** ** The script *)

Definition source : path :=
  (Root / "home" / "ace" / "Projects" / "Study-Sync" / "database-design.md")%path.

Definition dest_dir : path :=
  (Root / "home" / "ace" / "Projects" / "Study-Sync" / "studysync-backend"
        / "scripts" / "migrations")%path.

Definition dest : path := (dest_dir / "001_initial_schema.sql")%path.

(** extract.py, statement by statement. *)
Definition main : io unit :=
  lines ← (f ← open_r source; f_readlines f);
  let sql := scan lines in
  makedirs dest_dir true;;
  (f ← open_w dest; writelines f sql);;
  print "Done".

(** ** When the script can run *)

(** Where a path sits: the root nowhere, any other path in a directory. *)
Definition in_dir (fs : gmap path node) (p : path) : bool :=
  match p with
  | Root => true
  | Sub parent _ => isdir fs parent
  end.

(** [p] is [d] or lies above it. *)
Fixpoint above (p d : path) : bool :=
  bool_decide (p = d)
  || match d with
     | Root => false
     | Sub head _ => above p head
     end.

(** The file system is a tree: the root is a directory and every entry
    sits in a directory. *)
Definition tree (fs : gmap path node) : Prop :=
  isdir fs Root = true ∧ map_Forall (λ p _, in_dir fs p = true) fs.

(** [makedirs] can make [d]: it is a directory already, or it is missing
    below a nearest existing ancestor that is a directory open to new
    entries. *)
Fixpoint makable (fs : gmap path node) (d : path) : bool :=
  match fs !! d with
  | Some (Dir _) => true
  | Some (File _ _ _) => false
  | None =>
      match d with
      | Root => false
      | Sub parent _ =>
          match fs !! parent with
          | Some (Dir wr) => wr
          | Some (File _ _ _) => false
          | None => makable fs parent
          end
      end
  end.

(** The migration file can be opened for writing once its directory is
    made: it is a file open to writing, or it is missing and its
    directory, if there, is open to new entries. *)
Definition dest_writable (fs : gmap path node) : bool :=
  match fs !! dest with
  | Some (File _ wr _) => wr
  | Some (Dir _) => false
  | None => match fs !! dest_dir with Some (Dir wr) => wr | _ => true end
  end.

(** The destination side of the world lets the script through. *)
Definition dest_ready (w : world) : Prop :=
  tree (files w) ∧ makable (files w) dest_dir = true
  ∧ dest_writable (files w) = true.

(** The source is a file open to reading, and [data] is its text as
    text mode yields it. *)
Definition source_holds (w : world) (data : str) : Prop :=
  ∃ wr raw, files w !! source = Some (File true wr raw) ∧ text_of raw = Some data.

(** The source can be opened: it is a regular file open to reading. *)
Definition source_opens (w : world) : Prop :=
  ∃ wr raw, files w !! source = Some (File true wr raw).

(** What opening the source and reading its lines does, the first
    statement of the script. *)
Definition read_source : io (list str) := f ← open_r source; f_readlines f.

(** The text of the migration file, when there is one. *)
Definition dest_data (w : world) : option str :=
  match files w !! dest with
  | Some (File _ _ data) => Some data
  | _ => None
  end.

(** A small world to run the script in: the project directory with the
    Markdown file of the example, nothing below it yet. *)
Definition project_dirs : gmap path node :=
  <[(Root / "home" / "ace" / "Projects" / "Study-Sync")%path := Dir true]>
  (<[(Root / "home" / "ace" / "Projects")%path := Dir true]>
  (<[(Root / "home" / "ace")%path := Dir true]>
  (<[(Root / "home")%path := Dir true]>
  (<[Root := Dir true]> ∅)))).

Definition example_world : world :=
  World (<[source := File true true (concat example_lines)]> project_dirs) [].

(** A document with two SQL blocks, one with none, and a world whose
    source cannot be read. *)
Definition two_blocks_lines : list str :=
  [ lit "# Title" ++ [LF];
    lit "```sql" ++ [LF];
    lit "CREATE TABLE t (id INT);" ++ [LF];
    lit "```" ++ [LF];
    lit "and later" ++ [LF];
    lit "```sql" ++ [LF];
    lit "DROP TABLE t;" ++ [LF];
    lit "```" ++ [LF] ].

Definition unterminated_lines : list str :=
  [ lit "# Title" ++ [LF];
    lit "  ```sql  " ++ [LF];
    lit "CREATE TABLE t (id INT);" ++ [LF];
    lit "SELECT 1;" ].

Definition plain_lines : list str :=
  [ lit "# Title" ++ [LF]; lit "```" ++ [LF]; lit "no SQL here" ++ [LF] ].

Definition world_with (lines : list str) : world :=
  World (<[source := File true true (concat lines)]> project_dirs) [].

Definition locked_world : world :=
  World (<[source := File false true (concat example_lines)]> project_dirs) [].

Definition bare_world : world := World project_dirs [].

(** ** The scan, said without a loop *)

(** What follows the first line that strips to the opening marker. *)
Fixpoint after_opening (lines : list str) : list str :=
  match lines with
  | [] => []
  | line :: rest =>
      if bool_decide (strip line = opening) then rest else after_opening rest
  end.

(** The lines before the first one that strips to the closing marker. *)
Fixpoint up_to_closing (lines : list str) : list str :=
  match lines with
  | [] => []
  | line :: rest =>
      if bool_decide (strip line = closing) then []
      else line :: up_to_closing rest
  end.

(** A string of whitespace only. *)
Definition blank (s : str) : Prop := Forall (λ c, isspace c = true) s.

(** ** Every way the run can end *)

(** Opening the source fails; or decoding it; or [makedirs] does; or opening the migration file
    does; or the file is written and [Done] printed. *)
Inductive outcome (w : world) : result unit * world → Prop :=
  | read_failed e :
      open_r source w = (Raise e, w) →
      outcome w (Raise e, w)
  | decode_failed raw :
      open_r source w = (Ok raw, w) →
      text_of raw = None →
      outcome w (RaiseUnicodeDecodeError, w)
  | makedirs_failed data e w1 :
      source_holds w data →
      makedirs dest_dir true w = (Raise e, w1) →
      outcome w (Raise e, w1)
  | open_failed data e w1 :
      source_holds w data →
      makedirs dest_dir true w = (Ok (), w1) →
      open_w dest w1 = (Raise e, w1) →
      outcome w (Raise e, w1)
  | written data w1 r :
      source_holds w data →
      makedirs dest_dir true w = (Ok (), w1) →
      open_w dest w1 = (Ok dest, set_files <[dest := File r true []]> w1) →
      outcome w
        (Ok (), World (<[dest := File r true (concat (scan (readlines data)))]>
                         (files w1))
                      (stdout w1 ++ ["Done"%string])).

(** Two worlds that stop the script after the read: one where a file
    sits on the way to the directory, one where the directory is there
    but closed to new entries. *)
Definition blocked_world : world :=
  World (<[(Root / "home" / "ace" / "Projects" / "Study-Sync"
                 / "studysync-backend")%path := File true true []]>
           (files example_world)) [].

Definition sealed_world : world :=
  World (<[dest_dir := Dir false]>
        (<[(Root / "home" / "ace" / "Projects" / "Study-Sync"
                 / "studysync-backend" / "scripts")%path := Dir true]>
        (<[(Root / "home" / "ace" / "Projects" / "Study-Sync"
                 / "studysync-backend")%path := Dir true]>
           (files example_world)))) [].

(** A source with CR LF line endings, one whose bytes are no text, and
    a world where a regular file stands on the way to the source. *)
Definition crlf_text : str :=
  lit "```sql" ++ [CR; LF] ++ lit "SELECT 1;" ++ [CR; LF] ++ lit "```" ++ [CR; LF].

Definition crlf_world : world :=
  World (<[source := File true true crlf_text]> project_dirs) [].

Definition garbled_world : world :=
  World (<[source := File true true (lit "caf" ++ [56553; LF])]> project_dirs) [].

Definition severed_world : world :=
  World (<[(Root / "home" / "ace" / "Projects")%path := File true true []]>
        (<[(Root / "home" / "ace")%path := Dir true]>
        (<[(Root / "home")%path := Dir true]>
        (<[Root := Dir true]> ∅)))) [].

(** * Properties *)
(** ** The example of the specification *)

Example scan_example : scan example_lines = [lit "CREATE TABLE t (id INT);" ++ [LF]].
Proof. vm_compute. reflexivity. Qed.

Example main_example :
  fst (main example_world) = Ok () ∧
  files (snd (main example_world)) !! dest
    = Some (File true true (lit "CREATE TABLE t (id INT);" ++ [LF])).
Proof. vm_compute. split; reflexivity. Qed.


(** ** The loop body, case by case *)

Lemma opening_not_closing : opening ≠ closing.
Proof. discriminate. Qed.

Lemma body_opening st line :
  strip line = opening → body st line = Continue (ScanState true (sql st)).
Proof. intros H. unfold body. by rewrite bool_decide_eq_true_2. Qed.

Lemma body_closing st line :
  in_sql st = true → strip line = closing → body st line = Break st.
Proof.
  intros Hin H. unfold body.
  rewrite bool_decide_eq_false_2.
  - rewrite Hin. by rewrite bool_decide_eq_true_2.
  - rewrite H. intros E. by apply opening_not_closing.
Qed.

Lemma body_inside st line :
  in_sql st = true → strip line ≠ opening → strip line ≠ closing →
  body st line = Continue (ScanState true (sql st ++ [line])).
Proof.
  intros Hin Ho Hc. unfold body.
  rewrite (bool_decide_eq_false_2 _ Ho), (bool_decide_eq_false_2 _ Hc), Hin.
  reflexivity.
Qed.

Lemma body_outside st line :
  in_sql st = false → strip line ≠ opening → body st line = Continue st.
Proof.
  intros Hin Ho. unfold body.
  rewrite (bool_decide_eq_false_2 _ Ho), Hin. reflexivity.
Qed.

(** ** The loop over a whole stretch of lines *)


Lemma kept_all lines :
  Forall (λ line, strip line ≠ opening) lines → kept lines = lines.
Proof.
  unfold kept. induction 1 as [|l ls Hl _ IH]; [done|].
  rewrite filter_cons_True by done. by rewrite IH.
Qed.

Lemma for_loop_before lines rest buf :
  Forall (λ line, strip line ≠ opening) lines →
  for_loop (lines ++ rest) (ScanState false buf)
  = for_loop rest (ScanState false buf).
Proof.
  induction 1 as [|l ls Hl _ IH]; [done|].
  simpl. by rewrite body_outside.
Qed.

Lemma for_loop_within lines rest buf :
  Forall (λ line, strip line ≠ closing) lines →
  for_loop (lines ++ rest) (ScanState true buf)
  = for_loop rest (ScanState true (buf ++ kept lines)).
Proof.
  intros H. revert buf.
  induction H as [|l ls Hl _ IH]; intros buf.
  - simpl. by rewrite app_nil_r.
  - simpl. unfold kept.
    destruct (decide (strip l = opening)) as [Ho|Ho].
    + rewrite body_opening by done. simpl.
      rewrite filter_cons_False by (intros E; by apply E).
      apply IH.
    + rewrite body_inside by done.
      rewrite filter_cons_True by done.
      rewrite IH. unfold kept. by rewrite <- app_assoc.
Qed.

Lemma for_loop_sql_prefix lines st :
  ∃ more, sql (for_loop lines st) = sql st ++ more
          ∧ more `sublist_of` lines
          ∧ Forall (λ line, strip line ≠ opening) more.
Proof.
  revert st. induction lines as [|l ls IH]; intros st.
  - exists []. simpl. by rewrite app_nil_r.
  - simpl. unfold body.
    case_bool_decide as Ho.
    + destruct (IH (ScanState true (sql st))) as (more & E & Hs & Hf).
      exists more. split_and!; [done| by apply sublist_cons_r; left |done].
    + destruct (in_sql st) eqn:Hin; simpl.
      * case_bool_decide as Hc.
        -- exists []. rewrite app_nil_r. split_and!; [done| apply sublist_nil_l |done].
        -- destruct (IH (ScanState true (sql st ++ [l]))) as (more & E & Hs & Hf).
           exists (l :: more). simpl in E. rewrite <- app_assoc in E.
           split_and!; [done| by apply sublist_skip |by constructor].
      * destruct (IH st) as (more & E & Hs & Hf).
        exists more. split_and!; [done| by apply sublist_cons_r; left |done].
Qed.

Lemma scan_sublist lines : scan lines `sublist_of` lines.
Proof.
  destruct (for_loop_sql_prefix lines scan_init) as (more & E & Hs & _).
  unfold scan. by rewrite E.
Qed.

Lemma scan_no_opening lines :
  Forall (λ line, strip line ≠ opening) (scan lines).
Proof.
  destruct (for_loop_sql_prefix lines scan_init) as (more & E & _ & Hf).
  unfold scan. by rewrite E.
Qed.

(** The block is found: what the scan returns whatever comes after. *)
Lemma scan_block before o block rest :
  Forall (λ line, strip line ≠ opening) before →
  strip o = opening →
  Forall (λ line, strip line ≠ closing) block →
  for_loop (before ++ o :: block ++ rest) scan_init
  = for_loop rest (ScanState true (kept block)).
Proof.
  intros Hb Ho Hm. unfold scan_init.
  rewrite for_loop_before by done. simpl.
  rewrite body_opening by done. simpl.
  by rewrite for_loop_within.
Qed.

Lemma scan_closed before o block c rest :
  Forall (λ line, strip line ≠ opening) before →
  strip o = opening →
  Forall (λ line, strip line ≠ closing) block →
  strip c = closing →
  scan (before ++ o :: block ++ c :: rest) = kept block.
Proof.
  intros Hb Ho Hm Hc. unfold scan.
  rewrite scan_block by done. simpl.
  by rewrite body_closing.
Qed.

Lemma scan_unclosed before o block :
  Forall (λ line, strip line ≠ opening) before →
  strip o = opening →
  Forall (λ line, strip line ≠ closing) block →
  scan (before ++ o :: block) = kept block.
Proof.
  intros Hb Ho Hm. unfold scan.
  rewrite <- (app_nil_r block) at 1.
  by rewrite scan_block.
Qed.

Lemma scan_unopened lines :
  Forall (λ line, strip line ≠ opening) lines → scan lines = [].
Proof.
  intros H. unfold scan, scan_init.
  rewrite <- (app_nil_r lines).
  by rewrite for_loop_before.
Qed.

(** ** Lines and text *)


Lemma readlines_wf s : lines_wf (readlines s).
Proof.
  induction s as [|c s IH]; simpl; [constructor|].
  destruct (N.eqb_spec c LF) as [->|Hc].
  - apply lines_wf_cons; [|done]. exists []. split; [apply not_elem_of_nil|done].
  - inversion IH as [|l Hl Hn E|l ls [t [Ht ->]] Hls E].
    + apply lines_wf_last; [done|]. rewrite not_elem_of_cons.
      split; [congruence|apply not_elem_of_nil].
    + apply lines_wf_last; [done|]. rewrite not_elem_of_cons.
      split; [congruence|done].
    + apply lines_wf_cons; [|done]. exists (c :: t).
      split; [|done]. rewrite not_elem_of_cons. split; [congruence|done].
Qed.

Lemma lines_wf_sublist ls ks : ks `sublist_of` ls → lines_wf ls → lines_wf ks.
Proof.
  intros Hs Hw. revert ks Hs.
  induction Hw as [|l Hl Hn|l ls He Hw IH]; intros ks Hs.
  - apply sublist_nil_r in Hs. subst. constructor.
  - apply sublist_cons_r in Hs as [Hs|(ks' & -> & Hs)];
      apply sublist_nil_r in Hs; subst; by constructor.
  - apply sublist_cons_r in Hs as [Hs|(ks' & -> & Hs)].
    + by apply IH.
    + apply lines_wf_cons; [done|by apply IH].
Qed.

Lemma concat_readlines s : concat (readlines s) = s.
Proof.
  induction s as [|c s IH]; simpl; [done|].
  destruct (c =? LF); simpl; [by rewrite IH|].
  destruct (readlines s) as [|l ls]; simpl in *; by rewrite <- IH.
Qed.

Lemma readlines_unended l : l ≠ [] → LF ∉ l → readlines l = [l].
Proof.
  induction l as [|c l IH]; intros Hne Hn; [done|].
  apply not_elem_of_cons in Hn as [Hc Hn]. simpl.
  destruct (N.eqb_spec c LF) as [->|_]; [done|].
  destruct l as [|c' l']; [done|].
  by rewrite IH.
Qed.

Lemma readlines_ended t rest :
  LF ∉ t → readlines (t ++ LF :: rest) = (t ++ [LF]) :: readlines rest.
Proof.
  induction t as [|c t IH]; intros Hn; simpl; [done|].
  apply not_elem_of_cons in Hn as [Hc Hn].
  destruct (N.eqb_spec c LF) as [->|_]; [done|].
  by rewrite IH.
Qed.

(** Text mode leaves no carriage return, and changes nothing where
    there is none. *)
Lemma universal_newlines_no_cr s : CR ∉ universal_newlines s.
Proof.
  assert (∀ s, (CR ∉ universal_newlines s) ∧ ∀ c, CR ∉ universal_newlines (c :: s))
    as H; [|apply H].
  clear s. induction s as [|c' s [IH1 IH2]].
  - split; [apply not_elem_of_nil|]. intros c. simpl.
    destruct (N.eqb_spec c CR) as [->|Hc]; rewrite not_elem_of_cons;
      (split; [done|apply not_elem_of_nil]).
  - split; [apply IH2|]. intros c.
    change (universal_newlines (c :: c' :: s)) with
      (if c =? CR then LF :: (if c' =? LF then universal_newlines s
                              else universal_newlines (c' :: s))
       else c :: universal_newlines (c' :: s)).
    destruct (N.eqb_spec c CR) as [->|Hc]; rewrite not_elem_of_cons.
    + split; [done|]. destruct (c' =? LF); [done|apply IH2].
    + split; [done|apply IH2].
Qed.

Lemma universal_newlines_id s : CR ∉ s → universal_newlines s = s.
Proof.
  induction s as [|c s IH]; [done|].
  intros [Hc Hs]%not_elem_of_cons. simpl.
  destruct (N.eqb_spec c CR) as [->|_]; [done|]. by rewrite IH.
Qed.

Lemma text_of_plain raw :
  decodes raw = true → CR ∉ raw → text_of raw = Some raw.
Proof.
  intros Hd Hc. unfold text_of. by rewrite Hd, universal_newlines_id.
Qed.

(** Cutting the written lines again gives the same lines back. *)
Lemma readlines_concat ls : lines_wf ls → readlines (concat ls) = ls.
Proof.
  induction 1 as [|l Hl Hn|l ls (t & Ht & ->) Hw IH]; simpl; [done| |].
  - rewrite app_nil_r. by apply readlines_unended.
  - rewrite <- app_assoc. simpl. rewrite readlines_ended by done. by rewrite IH.
Qed.

Lemma readlines_concat_scan s :
  readlines (concat (scan (readlines s))) = scan (readlines s).
Proof.
  apply readlines_concat.
  eapply lines_wf_sublist; [apply scan_sublist|apply readlines_wf].
Qed.

(** ** Directories *)

Lemma isdir_true fs p : isdir fs p = true ↔ ∃ wr, fs !! p = Some (Dir wr).
Proof.
  unfold isdir. split.
  - destruct (fs !! p) as [[wr|? ? ?]|]; [eauto|done|done].
  - by intros [wr ->].
Qed.

Lemma isdir_insert fs p x q :
  fs !! p = None ∨ (∃ wr, x = Dir wr) →
  isdir fs q = true → isdir (<[p:=x]> fs) q = true.
Proof.
  intros Hp Hq. unfold isdir in *.
  destruct (decide (p = q)) as [->|Hne].
  - rewrite lookup_insert_eq. destruct Hp as [Hp|[wr ->]]; [|done].
    by rewrite Hp in Hq.
  - by rewrite lookup_insert_ne.
Qed.

Lemma in_dir_insert fs p x q :
  fs !! p = None ∨ (∃ wr, x = Dir wr) →
  in_dir fs q = true → in_dir (<[p:=x]> fs) q = true.
Proof. destruct q as [|parent name]; [done|]. apply isdir_insert. Qed.

(** Adding an entry in a directory keeps the tree, as long as it does
    not put something else in the place of a directory. *)
Lemma tree_insert fs p x :
  tree fs → in_dir fs p = true →
  fs !! p = None ∨ (∃ wr, x = Dir wr) →
  tree (<[p:=x]> fs).
Proof.
  intros [Hroot Hall] Hin Hp. split.
  - by apply isdir_insert.
  - apply map_Forall_insert_2; [by apply in_dir_insert|].
    intros q y Hq. apply in_dir_insert; [done|]. by apply (Hall q y).
Qed.

(** Replacing a file by a file changes no directory. *)
Lemma tree_insert_file fs p r wr data r' wr' data' :
  tree fs → fs !! p = Some (File r wr data) →
  tree (<[p:=File r' wr' data']> fs).
Proof.
  intros [Hroot Hall] Hp.
  assert (Hd : ∀ q, isdir fs q = true → isdir (<[p:=File r' wr' data']> fs) q = true).
  { intros q Hq. unfold isdir in *. destruct (decide (p = q)) as [->|Hne].
    - by rewrite Hp in Hq.
    - by rewrite lookup_insert_ne. }
  assert (Hi : ∀ q, in_dir fs q = true → in_dir (<[p:=File r' wr' data']> fs) q = true).
  { intros [|parent name]; [done|]. apply Hd. }
  split; [by apply Hd|].
  apply map_Forall_insert_2; [apply Hi; by apply (Hall p _ Hp)|].
  intros q y Hq. apply Hi. by apply (Hall q y).
Qed.

Lemma tree_in_dir fs p x : tree fs → fs !! p = Some x → in_dir fs p = true.
Proof. intros [_ Hall] Hp. by apply (Hall p x). Qed.

(** ** [mkdir] and [makedirs] *)

(** The last step of [makedirs]: nothing to do for a directory that is
    there, [mkdir] otherwise. *)
Lemma mkdir_raises_on_dir d w :
  isdir (files w) d = true → ∃ e, mkdir d w = (Raise e, w).
Proof.
  intros Hd. apply isdir_true in Hd as [wr Hd].
  destruct d as [|parent name]; simpl; [by eexists|].
  unfold raise, throw. rewrite Hd.
  destruct (files w !! parent) as [[[]|]|]; by eexists.
Qed.

Lemma mkdir_raise_same d w e w' : mkdir d w = (Raise e, w') → w' = w.
Proof.
  destruct d as [|parent name]; simpl; unfold raise, throw; [congruence|].
  destruct (files w !! parent) as [[[]|]|];
    destruct (files w !! Sub parent name); congruence.
Qed.

(** [mkdir] raises nothing but an [OSError]. *)
Lemma mkdir_no_decode d w w' : mkdir d w ≠ (RaiseUnicodeDecodeError, w').
Proof.
  destruct d as [|parent name]; simpl; unfold raise, throw; [done|].
  destruct (files w !! parent) as [[[]|]|];
    destruct (files w !! Sub parent name); done.
Qed.

Lemma leaf_eq d w :
  leaf d w = if isdir (files w) d then (Ok (), w) else mkdir d w.
Proof.
  unfold leaf, try_except, mbind, io_bind, path_isdir.
  destruct (isdir (files w) d) eqn:Hd.
  - destruct (mkdir_raises_on_dir d w Hd) as [e ->]. by rewrite Hd.
  - destruct (mkdir d w) as [[[]|e|] w'] eqn:Hm; [done| |done].
    apply mkdir_raise_same in Hm as ->. by rewrite Hd.
Qed.

Lemma leaf_no_decode d w w' : leaf d w ≠ (RaiseUnicodeDecodeError, w').
Proof.
  rewrite leaf_eq. destruct (isdir (files w) d); [done|apply mkdir_no_decode].
Qed.

Lemma makedirs_root w :
  makedirs Root true w
  = if isdir (files w) Root then (Ok (), w)
    else (Raise (mkOSError FileExistsError Root), w).
Proof.
  change (makedirs Root true w) with (leaf Root w). rewrite leaf_eq.
  by destruct (isdir (files w) Root).
Qed.

Lemma makedirs_sub head name w :
  makedirs (Sub head name) true w =
  if bool_decide (is_Some (files w !! head)) then leaf (Sub head name) w
  else match makedirs head true w with
       | (Ok _, w1) => leaf (Sub head name) w1
       | (Raise e, w1) =>
           if bool_decide (kind e = FileExistsError) then leaf (Sub head name) w1
           else (Raise e, w1)
       | (RaiseUnicodeDecodeError, w1) => (RaiseUnicodeDecodeError, w1)
       end.
Proof.
  change (makedirs (Sub head name) true) with
    ((path_exists head ≫= λ e : bool,
        if e then mret ()
        else try_except (makedirs head true)
               (λ err, if bool_decide (kind err = FileExistsError) then mret ()
                       else throw err)) ≫= λ _ : unit, leaf (Sub head name)).
  unfold mbind, io_bind, path_exists, try_except, mret, io_ret, throw.
  destruct (bool_decide (is_Some (files w !! head))); [done|].
  destruct (makedirs head true w) as [[[]|e|] w1]; [done| |done].
  by destruct (bool_decide (kind e = FileExistsError)).
Qed.

(** [makedirs] raises nothing but an [OSError]. *)
Lemma makedirs_no_decode d w w' :
  makedirs d true w ≠ (RaiseUnicodeDecodeError, w').
Proof.
  revert w w'. induction d as [|head IH name]; intros w w'.
  - rewrite makedirs_root. by destruct (isdir (files w) Root).
  - rewrite makedirs_sub. case_bool_decide; [apply leaf_no_decode|].
    destruct (makedirs head true w) as [[[]|e|] w1] eqn:Hm.
    + apply leaf_no_decode.
    + case_bool_decide; [apply leaf_no_decode|done].
    + by apply IH in Hm.
Qed.

Lemma mkdir_stdout d w r w' : mkdir d w = (r, w') → stdout w' = stdout w.
Proof.
  destruct d as [|parent name]; simpl; unfold raise, throw; [congruence|].
  destruct (files w !! parent) as [[[]|]|];
    destruct (files w !! Sub parent name); by intros [= _ <-].
Qed.

Lemma leaf_stdout d w r w' : leaf d w = (r, w') → stdout w' = stdout w.
Proof.
  rewrite leaf_eq. destruct (isdir (files w) d); [congruence|].
  apply mkdir_stdout.
Qed.

(** What [makedirs] leaves behind, whatever it returns: standard output
    as it was, every entry that was there, and new directories only. *)
Lemma leaf_grows d w r w' :
  leaf d w = (r, w') →
  files w ⊆ files w'
  ∧ ∀ p x, files w' !! p = Some x → files w !! p = Some x ∨ x = Dir true.
Proof.
  rewrite leaf_eq. destruct (isdir (files w) d).
  { intros; simplify_eq. eauto. }
  destruct d as [|parent name]; simpl; unfold raise, throw.
  { intros; simplify_eq. eauto. }
  destruct (files w !! parent) as [[[]|]|] eqn:Hp;
    destruct (files w !! Sub parent name) eqn:Hd;
    intros; simplify_eq; eauto.
  simpl. split; [by apply insert_subseteq|].
  intros p x. rewrite lookup_insert_Some. intros [[_ <-]|[_ ?]]; eauto.
Qed.

Lemma makedirs_grows d w r w' :
  makedirs d true w = (r, w') →
  stdout w' = stdout w
  ∧ files w ⊆ files w'
  ∧ ∀ p x, files w' !! p = Some x → files w !! p = Some x ∨ x = Dir true.
Proof.
  revert w r w'. induction d as [|head IH name]; intros w r w'.
  - rewrite makedirs_root. destruct (isdir (files w) Root); intros; simplify_eq; eauto.
  - rewrite makedirs_sub.
    assert (Hleaf : ∀ w1, stdout w1 = stdout w → files w ⊆ files w1 →
      (∀ p x, files w1 !! p = Some x → files w !! p = Some x ∨ x = Dir true) →
      leaf (Sub head name) w1 = (r, w') →
      stdout w' = stdout w ∧ files w ⊆ files w'
      ∧ ∀ p x, files w' !! p = Some x → files w !! p = Some x ∨ x = Dir true).
    { intros w1 Hs Hsub Hnew Hl.
      pose proof (leaf_stdout _ _ _ _ Hl) as Hs'.
      destruct (leaf_grows _ _ _ _ Hl) as [Hsub' Hnew'].
      split_and!; [congruence|by etrans|].
      intros p x Hp. destruct (Hnew' p x Hp) as [Hp1| ->]; eauto. }
    case_bool_decide.
    { apply Hleaf; eauto. }
    destruct (makedirs head true w) as [[[]|e|] w1] eqn:Hm;
      [| |by apply makedirs_no_decode in Hm];
      destruct (IH _ _ _ Hm) as (Hs & Hsub & Hnew).
    { by apply Hleaf. }
    case_bool_decide; [by apply Hleaf|].
    intros; simplify_eq. eauto.
Qed.

(** [makedirs] leaves alone whatever is not on the way to [d]. *)
Lemma leaf_frame d w r w' p :
  leaf d w = (r, w') → p ≠ d → files w' !! p = files w !! p.
Proof.
  rewrite leaf_eq. destruct (isdir (files w) d); [by intros [= _ <-]|].
  destruct d as [|parent name]; simpl; unfold raise, throw; [by intros [= _ <-]|].
  destruct (files w !! parent) as [[[]|]|];
    destruct (files w !! Sub parent name); intros [= _ <-]; try done.
  intros Hne. simpl. by rewrite lookup_insert_ne.
Qed.

Lemma makedirs_frame d w r w' p :
  makedirs d true w = (r, w') → above p d = false →
  files w' !! p = files w !! p.
Proof.
  revert w r w'. induction d as [|head IH name]; intros w r w'.
  - rewrite makedirs_root. by destruct (isdir (files w) Root); intros [= _ <-].
  - rewrite makedirs_sub. simpl.
    intros Hm [Hne Hab]%orb_false_elim. apply bool_decide_eq_false in Hne.
    revert Hm. case_bool_decide.
    { intros Hl. by apply (leaf_frame _ _ _ _ _ Hl). }
    destruct (makedirs head true w) as [[[]|e|] w1] eqn:Hm;
      [| |by apply makedirs_no_decode in Hm];
      pose proof (IH _ _ _ Hm Hab) as E.
    { intros Hl. by rewrite (leaf_frame _ _ _ _ _ Hl). }
    case_bool_decide.
    { intros Hl. by rewrite (leaf_frame _ _ _ _ _ Hl). }
    by intros [= _ <-].
Qed.

Lemma makable_isdir fs d : isdir fs d = true → makable fs d = true.
Proof.
  intros [wr Hd]%isdir_true. destruct d; simpl; by rewrite Hd.
Qed.

(** [makedirs] goes through on a tree where the directory can be made. *)
Lemma makedirs_ok d w :
  tree (files w) → makable (files w) d = true →
  ∃ w', makedirs d true w = (Ok (), w')
        ∧ tree (files w')
        ∧ isdir (files w') d = true
        ∧ (files w !! d = None → files w' !! d = Some (Dir true)).
Proof.
  revert w. induction d as [|head IH name]; intros w Ht Hm.
  - rewrite makedirs_root. pose proof Ht as [Hr _]. rewrite Hr.
    exists w. split_and!; [done|done|done|].
    apply isdir_true in Hr as [wr Hr]. congruence.
  - rewrite makedirs_sub. simpl in Hm.
    destruct (files w !! Sub head name) as [[wr|? ? ?]|] eqn:Hd; [|done|].
    + (* the directory is there *)
      pose proof (tree_in_dir _ _ _ Ht Hd) as Hin. simpl in Hin.
      apply isdir_true in Hin as [wr' Hh].
      rewrite bool_decide_eq_true_2 by (rewrite Hh; eauto).
      rewrite leaf_eq. unfold isdir at 1. rewrite Hd.
      exists w. split_and!; [done|done| |done].
      unfold isdir. by rewrite Hd.
    + destruct (files w !! head) as [[[]|? ? ?]|] eqn:Hh; [|done|done|].
      * (* the head is there and open *)
        rewrite bool_decide_eq_true_2 by eauto.
        rewrite leaf_eq. unfold isdir at 1. rewrite Hd.
        simpl. rewrite Hh, Hd.
        eexists. split_and!; [done| | |].
        -- simpl. apply tree_insert; [done| |by left].
           simpl. unfold isdir. by rewrite Hh.
        -- simpl. unfold isdir. by rewrite lookup_insert_eq.
        -- intros _. simpl. by rewrite lookup_insert_eq.
      * (* the head is missing too *)
        rewrite bool_decide_eq_false_2 by apply is_Some_None.
        destruct (IH w Ht Hm) as (w1 & Hmk & Ht1 & Hd1 & Hnew).
        rewrite Hmk. specialize (Hnew Hh).
        destruct (makedirs_grows _ _ _ _ Hmk) as (_ & _ & Hfresh).
        rewrite leaf_eq.
        destruct (isdir (files w1) (Sub head name)) eqn:Hd'.
        -- exists w1. split_and!; [done|done|done|]. intros _.
           apply isdir_true in Hd' as [wr Hd'].
           destruct (Hfresh _ _ Hd') as [?|[= ->]]; [congruence|done].
        -- assert (files w1 !! Sub head name = None) as Hd1'.
           { destruct (files w1 !! Sub head name) as [x|] eqn:E; [|done].
             destruct (Hfresh _ _ E) as [?| ->]; [congruence|].
             unfold isdir in Hd'. by rewrite E in Hd'. }
           simpl. rewrite Hnew, Hd1'.
           eexists. split_and!; [done| | |].
           ++ simpl. apply tree_insert; [done|by simpl|by left].
           ++ simpl. unfold isdir. by rewrite lookup_insert_eq.
           ++ intros _. simpl. by rewrite lookup_insert_eq.
Qed.

(** On a tree, [makedirs] has nothing to do for a directory. *)
Lemma makedirs_noop d w :
  tree (files w) → isdir (files w) d = true → makedirs d true w = (Ok (), w).
Proof.
  intros Ht Hd. destruct d as [|head name].
  - rewrite makedirs_root. by rewrite Hd.
  - rewrite makedirs_sub.
    pose proof Hd as [wr Hd']%isdir_true.
    pose proof (tree_in_dir _ _ _ Ht Hd') as [wr' Hh]%isdir_true.
    rewrite bool_decide_eq_true_2 by (rewrite Hh; eauto).
    rewrite leaf_eq. by rewrite Hd.
Qed.


(** ** Writing *)

Lemma writelines_eq f lines w r wr data :
  files w !! f = Some (File r wr data) →
  writelines f lines w
  = (Ok (), set_files <[f := File r wr (data ++ concat lines)]> w).
Proof.
  revert w data. induction lines as [|l ls IH]; intros [fs out] data Hf; simpl in *.
  - rewrite app_nil_r. unfold mret, io_ret, set_files. simpl.
    by rewrite insert_id.
  - unfold mbind, io_bind, write. simpl.
    rewrite (IH _ (data ++ l)).
    + unfold set_files. simpl. rewrite <- app_assoc.
      replace (<[f:=File r wr (data ++ l ++ concat ls)]> (alter (append_data l) f fs))
        with (<[f:=File r wr (data ++ l ++ concat ls)]> fs); [done|].
      apply map_eq. intros p.
      destruct (decide (f = p)) as [->|Hne].
      * by rewrite !lookup_insert_eq.
      * by rewrite !lookup_insert_ne, lookup_alter_ne.
    + simpl. by rewrite lookup_alter_eq, Hf.
Qed.

(** ** The whole script *)

Lemma main_eq w :
  main w =
  match open_r source w with
  | (Ok raw, w0) =>
      match text_of raw with
      | None => (RaiseUnicodeDecodeError, w0)
      | Some text =>
          match makedirs dest_dir true w0 with
          | (Ok _, w1) =>
              match open_w dest w1 with
              | (Ok f, w2) =>
                  match writelines f (scan (readlines text)) w2 with
                  | (Ok _, w3) => print "Done" w3
                  | (Raise e, w3) => (Raise e, w3)
                  | (RaiseUnicodeDecodeError, w3) => (RaiseUnicodeDecodeError, w3)
                  end
              | (Raise e, w2) => (Raise e, w2)
              | (RaiseUnicodeDecodeError, w2) => (RaiseUnicodeDecodeError, w2)
              end
          | (Raise e, w1) => (Raise e, w1)
          | (RaiseUnicodeDecodeError, w1) => (RaiseUnicodeDecodeError, w1)
          end
      end
  | (Raise e, w0) => (Raise e, w0)
  | (RaiseUnicodeDecodeError, w0) => (RaiseUnicodeDecodeError, w0)
  end.
Proof.
  unfold main, mbind, io_bind, mret, io_ret, f_readlines.
  destruct (open_r source w) as [[raw|e|] w0]; [|done|done].
  destruct (text_of raw) as [text|]; [|done].
  destruct (makedirs dest_dir true w0) as [[[]|e|] w1]; [|done|done].
  destruct (open_w dest w1) as [[f|e|] w2]; [|done|done].
  by destruct (writelines f (scan (readlines text)) w2) as [[[]|e|] w3].
Qed.

(** Opening raises nothing but an [OSError]. *)
Lemma open_r_no_decode p w w' : open_r p w ≠ (RaiseUnicodeDecodeError, w').
Proof.
  unfold open_r, raise, throw.
  by destruct (files w !! p) as [[|[] ? ?]|].
Qed.

Lemma open_w_no_decode p w w' : open_w p w ≠ (RaiseUnicodeDecodeError, w').
Proof.
  unfold open_w, raise, throw.
  destruct (files w !! p) as [[|? [] ?]|]; try done.
  destruct p as [|parent name]; [done|].
  by destruct (files w !! parent) as [[[]|]|].
Qed.

Lemma read_source_eq w :
  read_source w =
  match open_r source w with
  | (Ok raw, w0) =>
      match text_of raw with
      | Some text => (Ok (readlines text), w0)
      | None => (RaiseUnicodeDecodeError, w0)
      end
  | (Raise e, w0) => (Raise e, w0)
  | (RaiseUnicodeDecodeError, w0) => (RaiseUnicodeDecodeError, w0)
  end.
Proof.
  unfold read_source, mbind, io_bind, f_readlines.
  by destruct (open_r source w) as [[raw|e|] w0].
Qed.

Lemma open_r_same p w r w' : open_r p w = (r, w') → w' = w.
Proof.
  unfold open_r, raise, throw.
  destruct (files w !! p) as [[|[] ? ?]|]; congruence.
Qed.

Lemma source_not_dest : source ≠ dest.
Proof. discriminate. Qed.

Lemma dest_dir_not_dest : dest_dir ≠ dest.
Proof. discriminate. Qed.

(** The run on a world that lets it through. *)
Lemma main_ok w data :
  dest_ready w → source_holds w data →
  ∃ w', main w = (Ok (), w')
        ∧ dest_data w' = Some (concat (scan (readlines data)))
        ∧ stdout w' = stdout w ++ ["Done"%string]
        ∧ source_holds w' data
        ∧ dest_ready w'
        ∧ isdir (files w') dest_dir = true.
Proof.
  intros (Ht & Hm & Hw) (swr & raw & Hs & Htext).
  rewrite main_eq. unfold open_r. rewrite Hs, Htext.
  destruct (makedirs_ok dest_dir w Ht Hm) as (w1 & Hmk & Ht1 & Hd1 & Hnew).
  rewrite Hmk.
  destruct (makedirs_grows _ _ _ _ Hmk) as (Hout & Hsub & _).
  pose proof (makedirs_frame _ _ _ _ dest Hmk eq_refl) as Hdest.
  pose proof Hd1 as [dwr Hd1']%isdir_true.
  (* [open] leaves an empty file, in the place of a file or of nothing *)
  assert (∃ r, open_w dest w1 = (Ok dest, set_files <[dest := File r true []]> w1)
               ∧ (files w1 !! dest = None ∨ ∃ d, files w1 !! dest = Some (File r true d)))
    as (r & Ho & Hprev).
  { unfold dest_writable in Hw. unfold open_w. rewrite Hdest.
    destruct (files w !! dest) as [[|r [] d]|] eqn:Hd; try done.
    { exists r. eauto. }
    exists true. change dest with (Sub dest_dir "001_initial_schema.sql") at 1.
    cbv iota. change (Sub dest_dir "001_initial_schema.sql") with dest.
    rewrite Hd1'. destruct dwr; [eauto|].
    destruct (files w !! dest_dir) as [x|] eqn:Hdd.
    - rewrite (lookup_weaken _ _ _ _ Hdd Hsub) in Hd1'.
      injection Hd1' as ->. done.
    - rewrite (Hnew eq_refl) in Hd1'. done. }
  rewrite Ho.
  rewrite (writelines_eq dest _ _ r true []) by (simpl; apply lookup_insert_eq).
  unfold print, set_files. simpl. rewrite insert_insert_eq.
  eexists. split; [done|]. simpl.
  assert (tree (<[dest:=File r true (concat (scan (readlines data)))]> (files w1))) as Ht'.
  { destruct Hprev as [Hp|[d Hp]].
    - apply tree_insert; [done| |by left]. done.
    - by eapply tree_insert_file. }
  split_and!.
  - unfold dest_data. simpl. by rewrite lookup_insert_eq.
  - by rewrite Hout.
  - exists swr, raw. split; [|done].
    simpl. rewrite lookup_insert_ne by (symmetry; apply source_not_dest).
    by apply (lookup_weaken _ _ _ _ Hs Hsub).
  - split_and!.
    + done.
    + apply makable_isdir. unfold isdir. cbn [files].
      rewrite lookup_insert_ne by (symmetry; apply dest_dir_not_dest).
      by rewrite Hd1'.
    + unfold dest_writable. cbn [files]. by rewrite lookup_insert_eq.
  - unfold isdir. cbn [files]. rewrite lookup_insert_ne by (symmetry; apply dest_dir_not_dest).
    by rewrite Hd1'.
Qed.

(** ** What a run that went through has done *)

Lemma leaf_tree d w r w' : tree (files w) → leaf d w = (r, w') → tree (files w').
Proof.
  intros Ht. rewrite leaf_eq. destruct (isdir (files w) d); [by intros [= _ <-]|].
  destruct d as [|parent name]; simpl; unfold raise, throw; [by intros [= _ <-]|].
  destruct (files w !! parent) as [[[]|]|] eqn:Hp;
    destruct (files w !! Sub parent name) eqn:Hd; intros [= _ <-]; try done.
  simpl. apply tree_insert; [done| |by left].
  simpl. unfold isdir. by rewrite Hp.
Qed.

Lemma makedirs_tree d w r w' :
  tree (files w) → makedirs d true w = (r, w') → tree (files w').
Proof.
  revert w r w'. induction d as [|head IH name]; intros w r w' Ht.
  - rewrite makedirs_root. by destruct (isdir (files w) Root); intros [= _ <-].
  - rewrite makedirs_sub. case_bool_decide.
    { by apply leaf_tree. }
    destruct (makedirs head true w) as [[[]|e|] w1] eqn:Hm;
      pose proof (IH _ _ _ Ht Hm) as Ht1.
    { by apply leaf_tree. }
    { case_bool_decide; [by apply leaf_tree|]. by intros [= _ <-]. }
    by intros [= _ <-].
Qed.

Lemma leaf_isdir d w w' : leaf d w = (Ok (), w') → isdir (files w') d = true.
Proof.
  rewrite leaf_eq. destruct (isdir (files w) d) eqn:Hd; [by intros [= <-]|].
  destruct d as [|parent name]; simpl; unfold raise, throw; [done|].
  destruct (files w !! parent) as [[[]|]|];
    destruct (files w !! Sub parent name); intros [= <-]; try done.
  simpl. unfold isdir. by rewrite lookup_insert_eq.
Qed.

Lemma makedirs_isdir d w w' :
  makedirs d true w = (Ok (), w') → isdir (files w') d = true.
Proof.
  destruct d as [|head name].
  - rewrite makedirs_root. destruct (isdir (files w) Root) eqn:E; [|done].
    by intros [= <-].
  - rewrite makedirs_sub. case_bool_decide; [apply leaf_isdir|].
    destruct (makedirs head true w) as [[[]|e|] w1]; [apply leaf_isdir| |done].
    case_bool_decide; [apply leaf_isdir|done].
Qed.

(** [open(p, 'w')] that went through: the file is there, empty, in the
    place of a file open to writing or of nothing. *)
Lemma open_w_ok p w f w' :
  open_w p w = (Ok f, w') →
  f = p ∧ ∃ r, w' = set_files <[p := File r true []]> w
    ∧ ((files w !! p = None ∧ in_dir (files w) p = true ∧ r = true)
       ∨ ∃ data, files w !! p = Some (File r true data)).
Proof.
  unfold open_w, raise, throw.
  destruct (files w !! p) as [[|r [] data]|] eqn:Hp; try done.
  { intros [= <- <-]. split; [done|]. exists r. eauto. }
  destruct p as [|parent name]; [done|].
  destruct (files w !! parent) as [[[]|]|] eqn:Hd; try done.
  intros [= <- <-]. split; [done|]. exists true. split; [done|]. left.
  split_and!; [done| |done]. simpl. unfold isdir. by rewrite Hd.
Qed.

Lemma open_w_raise_same p w e w' : open_w p w = (Raise e, w') → w' = w.
Proof.
  unfold open_w, raise, throw.
  destruct (files w !! p) as [[|? [] ?]|]; try congruence.
  destruct p as [|parent name]; [congruence|].
  destruct (files w !! parent) as [[[]|]|]; congruence.
Qed.

Lemma open_r_ok p w data w' :
  open_r p w = (Ok data, w') → w' = w ∧ ∃ wr, files w !! p = Some (File true wr data).
Proof.
  unfold open_r, raise, throw.
  destruct (files w !! p) as [[|[] wr d]|]; try done.
  intros [= <- <-]. eauto.
Qed.

(** A run that went through read the source, made the directory, and
    left the scanned lines in the migration file. *)
Lemma main_done w w' :
  main w = (Ok (), w') →
  ∃ data w1 r,
    source_holds w data
    ∧ makedirs dest_dir true w = (Ok (), w1)
    ∧ ((files w1 !! dest = None ∧ r = true)
       ∨ ∃ old, files w1 !! dest = Some (File r true old))
    ∧ w' = World (<[dest := File r true (concat (scan (readlines data)))]> (files w1))
                 (stdout w ++ ["Done"%string]).
Proof.
  rewrite main_eq.
  destruct (open_r source w) as [[raw|e|] w0] eqn:Hr; [|done|done].
  apply open_r_ok in Hr as [-> [swr Hs]].
  destruct (text_of raw) as [data|] eqn:Htext; [|done].
  destruct (makedirs dest_dir true w) as [[[]|e|] w1] eqn:Hm; [|done|done].
  destruct (open_w dest w1) as [[f|e|] w2] eqn:Ho; [|done|done].
  apply open_w_ok in Ho as (-> & r & -> & Hprev).
  rewrite (writelines_eq dest _ _ r true []) by (simpl; apply lookup_insert_eq).
  unfold print, set_files. simpl. rewrite insert_insert_eq.
  intros [= <-]. exists data, w1, r. split_and!; [by exists swr, raw|done| |].
  - destruct Hprev as [(? & _ & ?)|?]; eauto.
  - destruct (makedirs_grows _ _ _ _ Hm) as (-> & _). done.
Qed.

(** The tree stays a tree through a whole run. *)
Lemma main_tree w r w' : tree (files w) → main w = (r, w') → tree (files w').
Proof.
  intros Ht. rewrite main_eq.
  destruct (open_r source w) as [[raw|e|] w0] eqn:Hr;
    pose proof (open_r_same _ _ _ _ Hr) as ->;
    [|by intros [= _ <-]|by intros [= _ <-]].
  destruct (text_of raw) as [data|]; [|by intros [= _ <-]].
  destruct (makedirs dest_dir true w) as [[[]|e|] w1] eqn:Hm;
    pose proof (makedirs_tree _ _ _ _ Ht Hm) as Ht1;
    [|by intros [= _ <-]|by intros [= _ <-]].
  destruct (open_w dest w1) as [[f|e|] w2] eqn:Ho;
    [| |by apply open_w_no_decode in Ho].
  - apply open_w_ok in Ho as (-> & r0 & -> & Hprev).
    rewrite (writelines_eq dest _ _ r0 true []) by (simpl; apply lookup_insert_eq).
    unfold print, set_files. simpl. rewrite insert_insert_eq.
    intros [= _ <-]. simpl.
    destruct Hprev as [(Hn & Hin & _)|[old Hp]].
    + apply tree_insert; [done|done|by left].
    + by eapply tree_insert_file.
  - apply open_w_raise_same in Ho as ->. by intros [= _ <-].
Qed.

(** On a tree, whatever lies above a directory is a directory. *)
Lemma tree_above fs d p :
  tree fs → isdir fs d = true → above p d = true → isdir fs p = true.
Proof.
  intros Ht. induction d as [|head IH name]; simpl; intros Hd Hab.
  - rewrite orb_false_r in Hab. by apply bool_decide_eq_true in Hab as ->.
  - apply orb_true_iff in Hab as [->%bool_decide_eq_true|Hab]; [done|].
    apply IH; [|done].
    apply isdir_true in Hd as [wr Hd].
    by apply (tree_in_dir _ _ _ Ht Hd).
Qed.

(** A second run after one that went through: the same files again. *)
Lemma main_again w w1 :
  tree (files w) → main w = (Ok (), w1) →
  main w1 = (Ok (), World (files w1) (stdout w1 ++ ["Done"%string])).
Proof.
  intros Ht Hrun.
  pose proof (main_tree _ _ _ Ht Hrun) as Ht1.
  destruct (main_done _ _ Hrun)
    as (data & wa & r & (swr & raw & Hs & Htext) & Hmk & _ & ->).
  destruct (makedirs_grows _ _ _ _ Hmk) as (_ & Hsub & _).
  pose proof (makedirs_isdir _ _ _ Hmk) as [dwr Hd]%isdir_true.
  cbn [files] in Ht1.
  rewrite main_eq. unfold open_r. cbn [files].
  rewrite lookup_insert_ne by (symmetry; apply source_not_dest).
  rewrite (lookup_weaken _ _ _ _ Hs Hsub), Htext.
  rewrite makedirs_noop; [|done|].
  2:{ unfold isdir. cbn [files].
      rewrite lookup_insert_ne by (symmetry; apply dest_dir_not_dest).
      by rewrite Hd. }
  unfold open_w. cbn [files]. rewrite lookup_insert_eq.
  rewrite (writelines_eq dest _ _ r true []) by (simpl; apply lookup_insert_eq).
  unfold print, set_files. simpl. by rewrite !insert_insert_eq.
Qed.

(** * The claims of the specification *)

(** Closed facts about a concrete world, by evaluation. *)
Ltac ready_by_eval :=
  split_and!; [split; [reflexivity|compute_done]|reflexivity|reflexivity].

Ltac holds_by_eval :=
  match goal with
  | |- source_holds _ ?data =>
      exists true, data; split; [reflexivity|vm_compute; reflexivity]
  end.

Lemma block_in_lines (before : list str) o block c rest :
  block `sublist_of` before ++ o :: block ++ c :: rest.
Proof.
  apply sublist_inserts_l, sublist_cons, sublist_inserts_r. reflexivity.
Qed.

(** C1 — extraction correctness (amended).  The lines are those of
    the source as text mode reads it, every line ending a line feed.
    When they are some lines without an opening marker, an opening
    marker, a block of lines that are neither marker, a closing marker
    and anything after it, the run goes through and the migration file
    holds exactly the lines of the block, in order and as read: its text
    is their concatenation, and cut into lines again it gives the block
    back.  For the example of the specification the file holds the one
    line [CREATE TABLE t (id INT);] with its line feed.  A source
    without a carriage return is read as it is, so that there the lines
    keep their own trailing characters. *)
Theorem C1_extraction_correctness :
  (∀ w data before o block c rest,
     dest_ready w → source_holds w data →
     readlines data = before ++ o :: block ++ c :: rest →
     Forall (λ line, strip line ≠ opening) before →
     strip o = opening →
     Forall (λ line, strip line ≠ opening ∧ strip line ≠ closing) block →
     strip c = closing →
     ∃ w', main w = (Ok (), w')
           ∧ dest_data w' = Some (concat block)
           ∧ readlines (concat block) = block)
  ∧ (∀ w, dest_ready w → source_holds w (concat example_lines) →
       ∃ w', main w = (Ok (), w')
             ∧ dest_data w' = Some (lit "CREATE TABLE t (id INT);" ++ [LF]))
  ∧ (∀ w wr raw,
       files w !! source = Some (File true wr raw) →
       decodes raw = true → CR ∉ raw → source_holds w raw).
Proof.
  assert (Hgen : ∀ w data before o block c rest,
     dest_ready w → source_holds w data →
     readlines data = before ++ o :: block ++ c :: rest →
     Forall (λ line, strip line ≠ opening) before →
     strip o = opening →
     Forall (λ line, strip line ≠ opening ∧ strip line ≠ closing) block →
     strip c = closing →
     ∃ w', main w = (Ok (), w')
           ∧ dest_data w' = Some (concat block)
           ∧ readlines (concat block) = block).
  { intros w data before o block c rest Hready Hsrc Hlines Hb Ho Hblock Hc.
    destruct (main_ok w data Hready Hsrc) as (w' & Hrun & Hdata & _).
    assert (scan (readlines data) = block) as Hscan.
    { rewrite Hlines, scan_closed; [|done|done| |done].
      - apply kept_all. eapply Forall_impl; [exact Hblock|]. by intros l [? _].
      - eapply Forall_impl; [exact Hblock|]. by intros l [_ ?]. }
    exists w'. split_and!; [done|by rewrite Hdata, Hscan|].
    apply readlines_concat. apply (lines_wf_sublist (readlines data)).
    - rewrite Hlines. apply block_in_lines.
    - apply readlines_wf. }
  split_and!; [exact Hgen| |].
  - intros w Hready Hsrc.
    destruct (Hgen w (concat example_lines)
                [lit "# Title" ++ [LF]] (lit "```sql" ++ [LF])
                [lit "CREATE TABLE t (id INT);" ++ [LF]] (lit "```" ++ [LF])
                [lit "trailing text" ++ [LF]])
      as (w' & Hrun & Hdata & _); try done.
    + repeat constructor. compute_done.
    + repeat constructor; compute_done.
    + exists w'. split; [done|]. rewrite Hdata. reflexivity.
  - intros w wr raw Hs Hd Hc. exists wr, raw. split; [done|].
    by apply text_of_plain.
Qed.

Lemma C1_extraction_correctness_witness :
  let before := [lit "# Title" ++ [LF]] in
  let o := lit "```sql" ++ [LF] in
  let block := [lit "CREATE TABLE t (id INT);" ++ [LF]] in
  let c := lit "```" ++ [LF] in
  let rest := [lit "trailing text" ++ [LF]] in
  dest_ready example_world
  ∧ source_holds example_world (concat example_lines)
  ∧ readlines (concat example_lines) = before ++ o :: block ++ c :: rest
  ∧ Forall (λ line, strip line ≠ opening) before
  ∧ strip o = opening
  ∧ Forall (λ line, strip line ≠ opening ∧ strip line ≠ closing) block
  ∧ strip c = closing
  ∧ (∃ w', main example_world = (Ok (), w')
           ∧ dest_data w' = Some (concat block)
           ∧ readlines (concat block) = block)
  ∧ (∃ w', main example_world = (Ok (), w')
           ∧ dest_data w' = Some (lit "CREATE TABLE t (id INT);" ++ [LF])).
Proof.
  intros before o block c rest.
  assert (dest_ready example_world) as Hready by ready_by_eval.
  assert (source_holds example_world (concat example_lines)) as Hsrc
    by holds_by_eval.
  assert (readlines (concat example_lines) = before ++ o :: block ++ c :: rest)
    as Hlines by (vm_compute; reflexivity).
  assert (Forall (λ line, strip line ≠ opening) before) as Hb by compute_done.
  assert (strip o = opening) as Ho by reflexivity.
  assert (Forall (λ line, strip line ≠ opening ∧ strip line ≠ closing) block)
    as Hm by compute_done.
  assert (strip c = closing) as Hc by reflexivity.
  split_and!; [exact Hready|exact Hsrc|exact Hlines|exact Hb|exact Ho|exact Hm
              |exact Hc| |].
  - exact (proj1 C1_extraction_correctness _ _ _ _ _ _ _
             Hready Hsrc Hlines Hb Ho Hm Hc).
  - exact (proj1 (proj2 C1_extraction_correctness) _ Hready Hsrc).
Defined.

(** The claim as the specification words it, for the lines of the file
    with their own endings, fails on a source with CR LF line endings:
    the line [SELECT 1;] is written with a line feed alone. *)
Lemma C1_counterexample :
  ¬ (∀ w wr raw before o block c rest,
       dest_ready w →
       files w !! source = Some (File true wr raw) →
       decodes raw = true →
       readlines raw = before ++ o :: block ++ c :: rest →
       Forall (λ line, strip line ≠ opening) before →
       strip o = opening →
       Forall (λ line, strip line ≠ opening ∧ strip line ≠ closing) block →
       strip c = closing →
       ∃ w', main w = (Ok (), w') ∧ dest_data w' = Some (concat block)).
Proof.
  intros H.
  destruct (H crlf_world true crlf_text []
              (lit "```sql" ++ [CR; LF]) [lit "SELECT 1;" ++ [CR; LF]]
              (lit "```" ++ [CR; LF]) [])
    as (w' & Hrun & Hdata).
  - ready_by_eval.
  - reflexivity.
  - reflexivity.
  - vm_compute. reflexivity.
  - constructor.
  - reflexivity.
  - compute_done.
  - reflexivity.
  - assert (main crlf_world = (Ok (), snd (main crlf_world))) as E
      by (vm_compute; reflexivity).
    rewrite E in Hrun. injection Hrun as <-.
    vm_compute in Hdata. discriminate Hdata.
Qed.

(** C2 — inside the block (amended).  The test for the opening marker
    comes first and does not look at [in_sql]: a line that strips to
    [```sql] is never appended and leaves [in_sql] set, inside the block
    as outside.  A line met inside the block that strips to neither
    marker is appended as it is, trailing characters included. *)
Theorem C2_body_inside_block st line :
  (strip line = opening → body st line = Continue (ScanState true (sql st)))
  ∧ (in_sql st = true → strip line ≠ closing → strip line ≠ opening →
     body st line = Continue (ScanState true (sql st ++ [line]))).
Proof.
  split.
  - apply body_opening.
  - intros Hin Hc Ho. by apply body_inside.
Qed.

Lemma C2_body_inside_block_witness :
  let st := ScanState true [lit "CREATE TABLE t (id INT);" ++ [LF]] in
  let line := lit "  id INT  " ++ [LF] in
  let again := lit "```sql" ++ [LF] in
  in_sql st = true ∧ strip line ≠ closing ∧ strip line ≠ opening
  ∧ body st line = Continue (ScanState true (sql st ++ [line]))
  ∧ strip again = opening
  ∧ body st again = Continue (ScanState true (sql st)).
Proof.
  intros st line again.
  assert (in_sql st = true) as Hin by reflexivity.
  assert (strip line ≠ closing) as Hc by (vm_compute; discriminate).
  assert (strip line ≠ opening) as Ho by (vm_compute; discriminate).
  assert (strip again = opening) as Ha by reflexivity.
  split_and!; [exact Hin|exact Hc|exact Ho| |exact Ha|].
  - exact (proj2 (C2_body_inside_block st line) Hin Hc Ho).
  - exact (proj1 (C2_body_inside_block st again) Ha).
Defined.

(** The claim as the specification words it fails on the line
    [```sql] met inside the block: it does not strip to the closing
    marker, and it is not appended. *)
Lemma C2_counterexample :
  ¬ (∀ st line, in_sql st = true → strip line ≠ closing →
       body st line = Continue (ScanState true (sql st ++ [line]))).
Proof.
  intros H.
  specialize (H (ScanState true []) (lit "```sql" ++ [LF])).
  assert (strip (lit "```sql" ++ [LF]) ≠ closing) as Hc by (vm_compute; discriminate).
  specialize (H eq_refl Hc). vm_compute in H. discriminate H.
Qed.

(** C3 — first block only.  After the first opening marker the scan
    stops at the first closing marker: whatever follows it, further
    blocks included, the lines extracted are those of the input cut off
    before that closing marker, all of them lines of the first block, in
    order; they are the whole block when it has no opening marker of its
    own; and the migration file holds them and nothing else. *)
Theorem C3_first_block_only before o block c rest :
  Forall (λ line, strip line ≠ opening) before →
  strip o = opening →
  Forall (λ line, strip line ≠ closing) block →
  strip c = closing →
  scan (before ++ o :: block ++ c :: rest) = scan (before ++ o :: block)
  ∧ scan (before ++ o :: block ++ c :: rest) = kept block
  ∧ (Forall (λ line, strip line ≠ opening) block →
     scan (before ++ o :: block ++ c :: rest) = block)
  ∧ (∀ w data, dest_ready w → source_holds w data →
       readlines data = before ++ o :: block ++ c :: rest →
       ∃ w', main w = (Ok (), w') ∧ dest_data w' = Some (concat (kept block))).
Proof.
  intros Hb Ho Hm Hc.
  pose proof (scan_closed before o block c rest Hb Ho Hm Hc) as Hscan.
  split_and!.
  - rewrite Hscan. symmetry. by apply scan_unclosed.
  - done.
  - intros Hk. rewrite Hscan. by apply kept_all.
  - intros w data Hready Hsrc Hlines.
    destruct (main_ok w data Hready Hsrc) as (w' & Hrun & Hdata & _).
    exists w'. split; [done|]. by rewrite Hdata, Hlines, Hscan.
Qed.

Lemma C3_first_block_only_witness :
  let before := [lit "# Title" ++ [LF]] in
  let o := lit "```sql" ++ [LF] in
  let block := [lit "CREATE TABLE t (id INT);" ++ [LF]] in
  let c := lit "```" ++ [LF] in
  let rest := [lit "and later" ++ [LF]; lit "```sql" ++ [LF];
               lit "DROP TABLE t;" ++ [LF]; lit "```" ++ [LF]] in
  Forall (λ line, strip line ≠ opening) before
  ∧ strip o = opening
  ∧ Forall (λ line, strip line ≠ closing) block
  ∧ strip c = closing
  ∧ dest_ready (world_with two_blocks_lines)
  ∧ source_holds (world_with two_blocks_lines) (concat two_blocks_lines)
  ∧ readlines (concat two_blocks_lines) = before ++ o :: block ++ c :: rest
  ∧ scan two_blocks_lines = block
  ∧ ∃ w', main (world_with two_blocks_lines) = (Ok (), w')
          ∧ dest_data w' = Some (lit "CREATE TABLE t (id INT);" ++ [LF]).
Proof.
  intros before o block c rest.
  assert (Forall (λ line, strip line ≠ opening) before) as Hb by compute_done.
  assert (strip o = opening) as Ho by reflexivity.
  assert (Forall (λ line, strip line ≠ closing) block) as Hm by compute_done.
  assert (strip c = closing) as Hc by reflexivity.
  assert (dest_ready (world_with two_blocks_lines)) as Hready by ready_by_eval.
  assert (source_holds (world_with two_blocks_lines) (concat two_blocks_lines))
    as Hsrc by holds_by_eval.
  assert (readlines (concat two_blocks_lines) = before ++ o :: block ++ c :: rest)
    as Hlines by (vm_compute; reflexivity).
  destruct (C3_first_block_only before o block c rest Hb Ho Hm Hc)
    as (_ & _ & Hall & Hfile).
  split_and!; [exact Hb|exact Ho|exact Hm|exact Hc|exact Hready|exact Hsrc
              |exact Hlines| |].
  - apply Hall. compute_done.
  - exact (Hfile _ _ Hready Hsrc Hlines).
Defined.

(** C4 — unterminated block (amended).  When an opening marker is met
    and no closing marker follows it, the lines extracted are the lines
    after the first opening marker up to the end of the input, in order,
    without those that strip to the opening marker themselves; they are
    all the lines after the marker when none of them does; and the
    migration file holds them. *)
Theorem C4_unterminated_block before o rest :
  Forall (λ line, strip line ≠ opening) before →
  strip o = opening →
  Forall (λ line, strip line ≠ closing) rest →
  scan (before ++ o :: rest) = kept rest
  ∧ (Forall (λ line, strip line ≠ opening) rest →
     scan (before ++ o :: rest) = rest)
  ∧ (∀ w data, dest_ready w → source_holds w data →
       readlines data = before ++ o :: rest →
       ∃ w', main w = (Ok (), w') ∧ dest_data w' = Some (concat (kept rest))).
Proof.
  intros Hb Ho Hr.
  pose proof (scan_unclosed before o rest Hb Ho Hr) as Hscan.
  split_and!.
  - done.
  - intros Hk. rewrite Hscan. by apply kept_all.
  - intros w data Hready Hsrc Hlines.
    destruct (main_ok w data Hready Hsrc) as (w' & Hrun & Hdata & _).
    exists w'. split; [done|]. by rewrite Hdata, Hlines, Hscan.
Qed.

Lemma C4_unterminated_block_witness :
  let before := [lit "# Title" ++ [LF]] in
  let o := lit "  ```sql  " ++ [LF] in
  let rest := [lit "CREATE TABLE t (id INT);" ++ [LF]; lit "SELECT 1;"] in
  Forall (λ line, strip line ≠ opening) before
  ∧ strip o = opening
  ∧ Forall (λ line, strip line ≠ closing) rest
  ∧ dest_ready (world_with unterminated_lines)
  ∧ source_holds (world_with unterminated_lines) (concat unterminated_lines)
  ∧ readlines (concat unterminated_lines) = before ++ o :: rest
  ∧ scan unterminated_lines = rest
  ∧ ∃ w', main (world_with unterminated_lines) = (Ok (), w')
          ∧ dest_data w'
            = Some (lit "CREATE TABLE t (id INT);" ++ [LF] ++ lit "SELECT 1;").
Proof.
  intros before o rest.
  assert (Forall (λ line, strip line ≠ opening) before) as Hb by compute_done.
  assert (strip o = opening) as Ho by reflexivity.
  assert (Forall (λ line, strip line ≠ closing) rest) as Hr by compute_done.
  assert (dest_ready (world_with unterminated_lines)) as Hready by ready_by_eval.
  assert (source_holds (world_with unterminated_lines) (concat unterminated_lines))
    as Hsrc by holds_by_eval.
  assert (readlines (concat unterminated_lines) = before ++ o :: rest)
    as Hlines by (vm_compute; reflexivity).
  destruct (C4_unterminated_block before o rest Hb Ho Hr) as (_ & Hall & Hfile).
  split_and!; [exact Hb|exact Ho|exact Hr|exact Hready|exact Hsrc|exact Hlines| |].
  - apply Hall. compute_done.
  - exact (Hfile _ _ Hready Hsrc Hlines).
Defined.

(** The claim as the specification words it fails when a second opening
    marker follows the first: that line is left out of the file. *)
Lemma C4_counterexample :
  ¬ (∀ before o rest,
       Forall (λ line, strip line ≠ opening) before →
       strip o = opening →
       Forall (λ line, strip line ≠ closing) rest →
       scan (before ++ o :: rest) = rest).
Proof.
  intros H.
  specialize (H [] (lit "```sql" ++ [LF])
                [lit "SELECT 1;" ++ [LF]; lit "```sql" ++ [LF]; lit "SELECT 2;" ++ [LF]]).
  assert (scan ([] ++ (lit "```sql" ++ [LF])
                  :: [lit "SELECT 1;" ++ [LF]; lit "```sql" ++ [LF]; lit "SELECT 2;" ++ [LF]])
          = [lit "SELECT 1;" ++ [LF]; lit "SELECT 2;" ++ [LF]]) as E
    by (vm_compute; reflexivity).
  rewrite E in H.
  assert (Forall (λ line, strip line ≠ closing)
            [lit "SELECT 1;" ++ [LF]; lit "```sql" ++ [LF]; lit "SELECT 2;" ++ [LF]])
    as Hr by compute_done.
  specialize (H (Forall_nil_2 _) eq_refl Hr).
  vm_compute in H. discriminate H.
Qed.

(** C5 — no marker.  When no line read from the source strips to the
    opening marker, the run goes through, no error is raised, and the
    migration file is there and empty. *)
Theorem C5_no_marker w data :
  dest_ready w → source_holds w data →
  Forall (λ line, strip line ≠ opening) (readlines data) →
  scan (readlines data) = []
  ∧ ∃ w', main w = (Ok (), w') ∧ dest_data w' = Some [].
Proof.
  intros Hready Hsrc Hno.
  pose proof (scan_unopened _ Hno) as Hscan.
  split; [done|].
  destruct (main_ok w data Hready Hsrc) as (w' & Hrun & Hdata & _).
  exists w'. split; [done|]. by rewrite Hdata, Hscan.
Qed.

Lemma C5_no_marker_witness :
  dest_ready (world_with plain_lines)
  ∧ source_holds (world_with plain_lines) (concat plain_lines)
  ∧ Forall (λ line, strip line ≠ opening) (readlines (concat plain_lines))
  ∧ scan (readlines (concat plain_lines)) = []
  ∧ ∃ w', main (world_with plain_lines) = (Ok (), w') ∧ dest_data w' = Some [].
Proof.
  assert (dest_ready (world_with plain_lines)) as Hready by ready_by_eval.
  assert (source_holds (world_with plain_lines) (concat plain_lines))
    as Hsrc by holds_by_eval.
  assert (Forall (λ line, strip line ≠ opening) (readlines (concat plain_lines)))
    as Hno by compute_done.
  split_and!; [exact Hready|exact Hsrc|exact Hno| |];
    apply (C5_no_marker _ _ Hready Hsrc Hno).
Defined.

(** C6 — idempotence.  After a run that went through, a second run on
    the world it left goes through too and leaves every file as the
    first run left it: the migration file holds the same text, written
    over the first run's, and nothing else has changed. *)
Theorem C6_idempotent w w1 :
  tree (files w) → main w = (Ok (), w1) →
  ∃ w2, main w1 = (Ok (), w2)
        ∧ files w2 = files w1
        ∧ dest_data w2 = dest_data w1
        ∧ is_Some (dest_data w1).
Proof.
  intros Ht Hrun.
  exists (World (files w1) (stdout w1 ++ ["Done"%string])).
  split_and!; [by apply (main_again w)|done|done|].
  destruct (main_done _ _ Hrun) as (data & wa & r & _ & _ & _ & ->).
  unfold dest_data. cbn [files]. rewrite lookup_insert_eq. eauto.
Qed.

Lemma C6_idempotent_witness :
  tree (files example_world)
  ∧ main example_world = (Ok (), snd (main example_world))
  ∧ ∃ w2, main (snd (main example_world)) = (Ok (), w2)
          ∧ files w2 = files (snd (main example_world))
          ∧ dest_data w2 = dest_data (snd (main example_world))
          ∧ is_Some (dest_data (snd (main example_world))).
Proof.
  assert (tree (files example_world)) as Ht by (split; [reflexivity|compute_done]).
  assert (main example_world = (Ok (), snd (main example_world))) as Hrun
    by (vm_compute; reflexivity).
  split_and!; [exact Ht|exact Hrun|].
  exact (C6_idempotent _ _ Ht Hrun).
Defined.

(** C7 — directory creation.  On a world where the source can be read,
    the directory of the migration file can be made (it is there, or
    missing below a directory open to new entries) and the file can be
    written, the run goes through and leaves the directory and all that
    lies above it as directories; on the world it leaves, where they
    exist, [makedirs] changes nothing and does not fail, and a second run
    goes through with the same files. *)
Theorem C7_directory_creation w data :
  tree (files w) → source_holds w data →
  makable (files w) dest_dir = true → dest_writable (files w) = true →
  ∃ w1, main w = (Ok (), w1)
        ∧ (∀ p, above p dest_dir = true → isdir (files w1) p = true)
        ∧ makedirs dest_dir true w1 = (Ok (), w1)
        ∧ ∃ w2, main w1 = (Ok (), w2) ∧ files w2 = files w1.
Proof.
  intros Ht Hsrc Hmk Hwr.
  destruct (main_ok w data (conj Ht (conj Hmk Hwr)) Hsrc)
    as (w1 & Hrun & _ & _ & _ & (Ht1 & _) & Hd).
  exists w1. split_and!.
  - done.
  - intros p Hp. by apply (tree_above _ dest_dir).
  - by apply makedirs_noop.
  - eexists. split; [by apply (main_again w)|done].
Qed.

Lemma C7_directory_creation_witness :
  files example_world !! dest_dir = None
  ∧ tree (files example_world)
  ∧ source_holds example_world (concat example_lines)
  ∧ makable (files example_world) dest_dir = true
  ∧ dest_writable (files example_world) = true
  ∧ ∃ w1, main example_world = (Ok (), w1)
          ∧ (∀ p, above p dest_dir = true → isdir (files w1) p = true)
          ∧ makedirs dest_dir true w1 = (Ok (), w1)
          ∧ ∃ w2, main w1 = (Ok (), w2) ∧ files w2 = files w1.
Proof.
  assert (tree (files example_world)) as Ht by (split; [reflexivity|compute_done]).
  assert (source_holds example_world (concat example_lines)) as Hsrc
    by holds_by_eval.
  assert (makable (files example_world) dest_dir = true) as Hmk by reflexivity.
  assert (dest_writable (files example_world) = true) as Hwr by reflexivity.
  split_and!; [reflexivity|exact Ht|exact Hsrc|exact Hmk|exact Hwr|].
  exact (C7_directory_creation _ _ Ht Hsrc Hmk Hwr).
Defined.

(** C8 — unreadable source.  When the source is not a regular file
    open to reading (it is missing, closed to reading, or a directory),
    the run ends with the error that [open] raises, an [OSError] whose
    file name is the source path; nothing catches it, and [Done] is not
    printed.  Its kind tells why: no permission for a file closed to
    reading, a directory in the place of the file, and for a source with
    no entry a missing name, or a regular file on the way to it. *)
Theorem C8_source_unreadable w :
  ¬ source_opens w →
  ∃ e, open_r source w = (Raise e, w)
       ∧ fst (main w) = Raise e
       ∧ filename e = source
       ∧ stdout (snd (main w)) = stdout w
       ∧ kind e = match files w !! source with
                  | None => missing (files w) source
                  | Some (Dir _) => IsADirectoryError
                  | Some (File _ _ _) => PermissionError
                  end.
Proof.
  intros Hno.
  assert (∃ e, open_r source w = (Raise e, w) ∧ filename e = source
               ∧ kind e = match files w !! source with
                          | None => missing (files w) source
                          | Some (Dir _) => IsADirectoryError
                          | Some (File _ _ _) => PermissionError
                          end)
    as (e & Ho & Hf & Hk).
  { unfold open_r, raise, throw.
    destruct (files w !! source) as [[wr|[] wr data]|] eqn:Hs.
    - eexists. split_and!; [done|done|done].
    - exfalso. apply Hno. exists wr, data. done.
    - eexists. split_and!; [done|done|done].
    - eexists. split_and!; [done|done|done]. }
  exists e. rewrite main_eq, Ho. by split_and!.
Qed.

Lemma C8_source_unreadable_witness :
  ¬ source_opens bare_world
  ∧ ¬ source_opens severed_world
  ∧ ¬ source_opens locked_world
  ∧ fst (main bare_world) = Raise (mkOSError FileNotFoundError source)
  ∧ fst (main severed_world) = Raise (mkOSError NotADirectoryError source)
  ∧ fst (main locked_world) = Raise (mkOSError PermissionError source)
  ∧ ∃ e, open_r source severed_world = (Raise e, severed_world)
         ∧ fst (main severed_world) = Raise e
         ∧ filename e = source
         ∧ stdout (snd (main severed_world)) = stdout severed_world
         ∧ kind e = match files severed_world !! source with
                    | None => missing (files severed_world) source
                    | Some (Dir _) => IsADirectoryError
                    | Some (File _ _ _) => PermissionError
                    end.
Proof.
  assert (¬ source_opens bare_world) as Hbare.
  { intros (wr & raw & H). vm_compute in H. discriminate H. }
  assert (¬ source_opens severed_world) as Hsev.
  { intros (wr & raw & H). vm_compute in H. discriminate H. }
  assert (¬ source_opens locked_world) as Hlock.
  { intros (wr & raw & H). vm_compute in H. discriminate H. }
  split_and!; [exact Hbare|exact Hsev|exact Hlock
              |vm_compute; reflexivity|vm_compute; reflexivity
              |vm_compute; reflexivity|].
  exact (C8_source_unreadable severed_world Hsev).
Defined.

(** C9 — no opening marker in the output.  No line that the scan
    returns strips to the opening marker, whatever the input; and after
    any run that went through, no line of the migration file does. *)
Theorem C9_no_opening_line_written :
  (∀ lines line, line ∈ scan lines → strip line ≠ opening)
  ∧ (∀ w w', main w = (Ok (), w') →
       ∃ data, dest_data w' = Some data
               ∧ ∀ line, line ∈ readlines data → strip line ≠ opening).
Proof.
  split.
  - intros lines line Hin.
    by apply (proj1 (Forall_forall _ _) (scan_no_opening lines)).
  - intros w w' Hrun.
    destruct (main_done _ _ Hrun) as (data & wa & r & _ & _ & _ & ->).
    eexists. split.
    + unfold dest_data. cbn [files]. by rewrite lookup_insert_eq.
    + intros line. rewrite readlines_concat_scan. intros Hin.
      by apply (proj1 (Forall_forall _ _) (scan_no_opening (readlines data))).
Qed.

Lemma C9_no_opening_line_written_witness :
  let line := lit "CREATE TABLE t (id INT);" ++ [LF] in
  line ∈ scan two_blocks_lines
  ∧ strip line ≠ opening
  ∧ main (world_with two_blocks_lines)
    = (Ok (), snd (main (world_with two_blocks_lines)))
  ∧ ∃ data, dest_data (snd (main (world_with two_blocks_lines))) = Some data
            ∧ ∀ line, line ∈ readlines data → strip line ≠ opening.
Proof.
  intros line.
  assert (line ∈ scan two_blocks_lines) as Hin by compute_done.
  assert (main (world_with two_blocks_lines)
          = (Ok (), snd (main (world_with two_blocks_lines)))) as Hrun
    by (vm_compute; reflexivity).
  split_and!; [exact Hin| |exact Hrun|].
  - exact (proj1 C9_no_opening_line_written _ _ Hin).
  - exact (proj2 C9_no_opening_line_written _ _ Hrun).
Defined.

(** C10 — no side effect when the read fails.  When opening the
    source raises, or reading its lines does, the run ends with that
    very failure and leaves the world as it found it: no directory is
    made, the migration file is neither made nor changed, nothing is
    printed. *)
Theorem C10_read_failure_no_effect w :
  (∀ lines, fst (read_source w) ≠ Ok lines) →
  snd (main w) = w
  ∧ (∀ e, fst (read_source w) = Raise e → fst (main w) = Raise e)
  ∧ (fst (read_source w) = RaiseUnicodeDecodeError →
     fst (main w) = RaiseUnicodeDecodeError)
  ∧ fst (main w) ≠ Ok ()
  ∧ files (snd (main w)) = files w
  ∧ isdir (files (snd (main w))) dest_dir = isdir (files w) dest_dir
  ∧ files (snd (main w)) !! dest = files w !! dest
  ∧ stdout (snd (main w)) = stdout w.
Proof.
  intros Hfail. revert Hfail. rewrite read_source_eq, main_eq.
  destruct (open_r source w) as [[raw|e|] w0] eqn:Ho;
    pose proof (open_r_same _ _ _ _ Ho) as ->.
  - destruct (text_of raw) as [text|].
    + intros Hfail. by destruct (Hfail (readlines text)).
    + intros _. by split_and!.
  - intros _. split_and!; try done. by intros e' [= ->].
  - intros _. by split_and!.
Qed.

Lemma C10_read_failure_no_effect_witness :
  (∀ lines, fst (read_source locked_world) ≠ Ok lines)
  ∧ (∀ lines, fst (read_source garbled_world) ≠ Ok lines)
  ∧ fst (read_source locked_world) = Raise (mkOSError PermissionError source)
  ∧ fst (open_r source garbled_world) = Ok (lit "caf" ++ [56553; LF])
  ∧ fst (read_source garbled_world) = RaiseUnicodeDecodeError
  ∧ main locked_world = (Raise (mkOSError PermissionError source), locked_world)
  ∧ main garbled_world = (RaiseUnicodeDecodeError, garbled_world)
  ∧ files (snd (main garbled_world)) !! dest = files garbled_world !! dest
  ∧ stdout (snd (main garbled_world)) = stdout garbled_world.
Proof.
  assert (∀ lines, fst (read_source locked_world) ≠ Ok lines) as Hlock
    by (intros lines; vm_compute; discriminate).
  assert (∀ lines, fst (read_source garbled_world) ≠ Ok lines) as Hgarb
    by (intros lines; vm_compute; discriminate).
  assert (fst (read_source locked_world) = Raise (mkOSError PermissionError source))
    as Hl by reflexivity.
  assert (fst (read_source garbled_world) = RaiseUnicodeDecodeError)
    as Hg by reflexivity.
  destruct (C10_read_failure_no_effect locked_world Hlock)
    as (Hw1 & Hr1 & _).
  destruct (C10_read_failure_no_effect garbled_world Hgarb)
    as (Hw2 & _ & Hr2 & _ & _ & _ & Hd2 & Hs2).
  split_and!; [exact Hlock|exact Hgarb|exact Hl|reflexivity|exact Hg
              | | |exact Hd2|exact Hs2].
  - rewrite (surjective_pairing (main locked_world)), Hw1, (Hr1 _ Hl). reflexivity.
  - rewrite (surjective_pairing (main garbled_world)), Hw2, (Hr2 Hg). reflexivity.
Defined.

(** * Further properties of the script *)

(** ** Stripping *)

Lemma lstrip_blank a s : blank a → lstrip (a ++ s) = lstrip s.
Proof.
  induction 1 as [|c a Hc _ IH]; [done|]. simpl. by rewrite Hc.
Qed.

Lemma lstrip_split s :
  ∃ a, blank a ∧ s = a ++ lstrip s
       ∧ match lstrip s with [] => True | c :: _ => isspace c = false end.
Proof.
  induction s as [|c s (a & Ha & E & Hh)]; simpl.
  - exists []. by split_and!; [constructor| |].
  - destruct (isspace c) eqn:Hc.
    + exists (c :: a). split_and!; [by constructor| |done].
      simpl. by rewrite <- E.
    + exists []. split_and!; [constructor|done|done].
Qed.

Lemma lstrip_keeps c s : isspace c = false → lstrip (c :: s) = c :: s.
Proof. intros Hc. simpl. by rewrite Hc. Qed.

Lemma blank_reverse a : blank a → blank (reverse a).
Proof. unfold blank. by rewrite Forall_reverse. Qed.

(** A token that neither starts nor ends with whitespace. *)
Lemma strip_token first t' last t'' line :
  first :: t' = t'' ++ [last] →
  isspace first = false → isspace last = false →
  strip line = first :: t'
  ↔ ∃ a b, blank a ∧ blank b ∧ line = a ++ (first :: t') ++ b.
Proof.
  intros Hlast Hf Hl. split.
  - intros Hs. unfold strip, rstrip in Hs.
    destruct (lstrip_split line) as (a & Ha & Ea & _).
    destruct (lstrip_split (reverse (lstrip line))) as (b & Hb & Eb & _).
    exists a, (reverse b). split_and!; [done|by apply blank_reverse|].
    rewrite Ea at 1. f_equal.
    rewrite <- (reverse_involutive (lstrip line)), Eb, reverse_app.
    by rewrite Hs.
  - intros (a & b & Ha & Hb & ->). unfold strip, rstrip.
    rewrite lstrip_blank by done.
    change ((first :: t') ++ b) with (first :: (t' ++ b)).
    rewrite lstrip_keeps by done.
    change (first :: (t' ++ b)) with ((first :: t') ++ b).
    rewrite reverse_app.
    rewrite lstrip_blank by (by apply blank_reverse).
    rewrite Hlast, reverse_snoc, lstrip_keeps by done.
    by rewrite <- reverse_snoc, reverse_involutive.
Qed.

(** X1 — what counts as a marker (lines 9 and 12).  A line strips to
    the opening marker exactly when it is the token [```sql] between two
    runs of whitespace, and to the closing marker exactly when it is
    [```] between two runs of whitespace: indentation and the line
    ending are ignored, anything else on the line makes it no marker. *)
Theorem X1_marker_lines line :
  (strip line = opening
   ↔ ∃ a b, blank a ∧ blank b ∧ line = a ++ opening ++ b)
  ∧ (strip line = closing
     ↔ ∃ a b, blank a ∧ blank b ∧ line = a ++ closing ++ b).
Proof.
  split.
  - apply (strip_token 96 (lit "``sql") 108 (lit "```sq")); reflexivity.
  - apply (strip_token 96 (lit "``") 96 (lit "``")); reflexivity.
Qed.

Lemma X1_marker_lines_witness :
  let line := lit "    ```sql  " ++ [13; LF] in
  let tagged := lit "```sql extra" ++ [LF] in
  (∃ a b, blank a ∧ blank b ∧ line = a ++ opening ++ b)
  ∧ strip line = opening
  ∧ strip tagged ≠ opening
  ∧ ¬ (∃ a b, blank a ∧ blank b ∧ tagged = a ++ opening ++ b).
Proof.
  intros line tagged.
  assert (∃ a b, blank a ∧ blank b ∧ line = a ++ opening ++ b) as Hshape.
  { exists (lit "    "), (lit "  " ++ [13; LF]).
    split_and!; [compute_done|compute_done|reflexivity]. }
  assert (strip tagged ≠ opening) as Hno by (vm_compute; discriminate).
  split_and!; [exact Hshape| |exact Hno|].
  - exact (proj2 (proj1 (X1_marker_lines line)) Hshape).
  - intros Hshape'. exact (Hno (proj2 (proj1 (X1_marker_lines tagged)) Hshape')).
Defined.

(** ** The loop and its result *)

Lemma for_loop_inside_spec lines buf :
  sql (for_loop lines (ScanState true buf)) = buf ++ kept (up_to_closing lines).
Proof.
  revert buf. induction lines as [|l ls IH]; intros buf; simpl.
  - by rewrite app_nil_r.
  - unfold body. simpl. unfold kept.
    case_bool_decide as Ho.
    + rewrite bool_decide_eq_false_2
        by (rewrite Ho; apply opening_not_closing).
      rewrite filter_cons_False by (intros E; by apply E).
      apply IH.
    + case_bool_decide as Hc; simpl.
      * by rewrite app_nil_r.
      * rewrite filter_cons_True by done.
        rewrite IH. unfold kept. by rewrite <- app_assoc.
Qed.

Lemma for_loop_outside_spec lines :
  sql (for_loop lines (ScanState false []))
  = kept (up_to_closing (after_opening lines)).
Proof.
  induction lines as [|l ls IH]; simpl; [done|].
  unfold body. simpl. case_bool_decide as Ho.
  - apply (for_loop_inside_spec ls []).
  - apply IH.
Qed.

(** X2 — the loop as a pipeline (lines 6 to 15).  For every input the
    list the loop builds is: what follows the first opening marker, cut
    before the first closing marker met from there, without the lines
    that strip to the opening marker. *)
Theorem X2_scan_pipeline lines :
  scan lines = kept (up_to_closing (after_opening lines)).
Proof. apply for_loop_outside_spec. Qed.

Lemma up_to_closing_sublist lines : up_to_closing lines `sublist_of` lines.
Proof.
  induction lines as [|l ls IH]; simpl; [done|].
  case_bool_decide; [apply sublist_nil_l|by apply sublist_skip].
Qed.

Lemma up_to_closing_no_closing lines :
  Forall (λ line, strip line ≠ closing) (up_to_closing lines).
Proof.
  induction lines as [|l ls IH]; simpl; [constructor|].
  case_bool_decide; [constructor|by constructor].
Qed.

(** X3 — nothing is invented (lines 8 to 15).  The lines extracted are
    lines of the input, each as it was read, in the order of the input
    and no more often than they occur there. *)
Theorem X3_scan_sublist lines :
  scan lines `sublist_of` lines ∧ (length (scan lines) ≤ length lines)%nat.
Proof.
  pose proof (scan_sublist lines) as Hs.
  split; [done|by apply sublist_length].
Qed.

(** X4 — no fence in the output (lines 9 to 15).  No extracted line
    strips to the closing marker, and none to the opening marker: the
    output never holds a fence line of either kind. *)
Theorem X4_no_fence_extracted lines line :
  line ∈ scan lines → strip line ≠ closing ∧ strip line ≠ opening.
Proof.
  unfold scan, scan_init. rewrite for_loop_outside_spec. unfold kept.
  intros [Ho Hin]%list_elem_of_filter. split; [|done].
  by apply (proj1 (Forall_forall _ _) (up_to_closing_no_closing (after_opening lines))).
Qed.

Lemma X4_no_fence_extracted_witness :
  let line := lit "CREATE TABLE t (id INT);" ++ [LF] in
  line ∈ scan two_blocks_lines
  ∧ strip line ≠ closing ∧ strip line ≠ opening.
Proof.
  intros line.
  assert (line ∈ scan two_blocks_lines) as Hin by compute_done.
  split_and!; [exact Hin| |]; apply (X4_no_fence_extracted _ _ Hin).
Defined.

(** X5 — before the block (lines 9 and 12).  Lines met before the first
    opening marker change nothing, closing markers among them included:
    the fence that ends another code block does not stop the scan. *)
Theorem X5_lines_before_ignored before rest :
  Forall (λ line, strip line ≠ opening) before →
  scan (before ++ rest) = scan rest.
Proof.
  intros Hb. unfold scan, scan_init. by rewrite for_loop_before.
Qed.

Lemma X5_lines_before_ignored_witness :
  let before := [lit "```python" ++ [LF]; lit "print(1)" ++ [LF]; lit "```" ++ [LF]] in
  Forall (λ line, strip line ≠ opening) before
  ∧ scan (before ++ example_lines) = scan example_lines
  ∧ scan (before ++ example_lines) = [lit "CREATE TABLE t (id INT);" ++ [LF]].
Proof.
  intros before.
  assert (Forall (λ line, strip line ≠ opening) before) as Hb by compute_done.
  split_and!; [exact Hb| |vm_compute; reflexivity].
  exact (X5_lines_before_ignored before example_lines Hb).
Defined.

(** ** When [makedirs] raises *)

Lemma above_depth p d :
  above p d = true → (length (path_names p) ≤ length (path_names d))%nat.
Proof.
  induction d as [|head IH name]; simpl.
  - rewrite orb_false_r. by intros ->%bool_decide_eq_true.
  - intros [->%bool_decide_eq_true|Hab]%orb_true_iff; [done|].
    specialize (IH Hab). lia.
Qed.

Lemma above_sub head name : above (Sub head name) head = false.
Proof.
  destruct (above (Sub head name) head) eqn:E; [|done].
  apply above_depth in E. simpl in E. lia.
Qed.

Lemma above_refl d : above d d = true.
Proof. destruct d; simpl; rewrite ?bool_decide_eq_true_2 by done; done. Qed.

Lemma leaf_raise d w e w' :
  leaf d w = (Raise e, w') →
  w' = w ∧ filename e = d ∧ isdir (files w) d = false.
Proof.
  rewrite leaf_eq. destruct (isdir (files w) d) eqn:Hd; [done|].
  destruct d as [|parent name]; simpl; unfold raise, throw.
  { by intros [= <- <-]. }
  destruct (files w !! parent) as [[[]|]|];
    destruct (files w !! Sub parent name); intros [= <- <-]; done.
Qed.

(** An error of [makedirs] names a path on the way to the directory,
    and leaves the place of the directory as it was. *)
Lemma makedirs_raise d w e w' :
  makedirs d true w = (Raise e, w') →
  above (filename e) d = true ∧ files w' !! d = files w !! d.
Proof.
  revert w e w'. induction d as [|head IH name]; intros w e w'.
  - rewrite makedirs_root. destruct (isdir (files w) Root); [done|].
    by intros [= <- <-].
  - rewrite makedirs_sub. case_bool_decide.
    { intros (-> & -> & _)%leaf_raise. by rewrite above_refl. }
    destruct (makedirs head true w) as [[[]|e1|] w1] eqn:Hm;
      [| |by apply makedirs_no_decode in Hm].
    + intros (-> & -> & _)%leaf_raise. rewrite above_refl. split; [done|].
      apply (makedirs_frame _ _ _ _ _ Hm), above_sub.
    + pose proof (makedirs_frame _ _ _ _ (Sub head name) Hm (above_sub _ _)) as Hf.
      case_bool_decide.
      * intros (-> & -> & _)%leaf_raise. by rewrite above_refl.
      * intros [= <- <-]. destruct (IH _ _ _ Hm) as [Hab _].
        split; [|done]. simpl. rewrite Hab. apply orb_true_r.
Qed.

(** On a tree, [makedirs] raises whenever the directory cannot be made. *)
Lemma makedirs_fails d w :
  tree (files w) → makable (files w) d = false →
  ∃ e w', makedirs d true w = (Raise e, w').
Proof.
  revert w. induction d as [|head IH name]; intros w Ht Hm.
  - destruct Ht as [[wr Hr]%isdir_true _]. simpl in Hm. by rewrite Hr in Hm.
  - rewrite makedirs_sub. simpl in Hm.
    destruct (files w !! Sub head name) as [[wr|r wr data]|] eqn:Hd; [done| |].
    + pose proof (tree_in_dir _ _ _ Ht Hd) as [wr' Hh]%isdir_true.
      rewrite bool_decide_eq_true_2 by (rewrite Hh; eauto).
      rewrite leaf_eq. unfold isdir at 1. rewrite Hd.
      simpl. rewrite Hh, Hd. by eexists _, _.
    + destruct (files w !! head) as [[[]|? ? ?]|] eqn:Hh; [done| | |].
      * rewrite bool_decide_eq_true_2 by eauto.
        rewrite leaf_eq. unfold isdir at 1. rewrite Hd.
        simpl. rewrite Hh, Hd. by eexists _, _.
      * rewrite bool_decide_eq_true_2 by eauto.
        rewrite leaf_eq. unfold isdir at 1. rewrite Hd.
        simpl. rewrite Hh. by eexists _, _.
      * rewrite bool_decide_eq_false_2 by apply is_Some_None.
        destruct (IH w Ht Hm) as (e & w1 & Hmk). rewrite Hmk.
        case_bool_decide; [|by eexists _, _].
        destruct (makedirs_raise _ _ _ _ Hmk) as [_ Hkeep].
        pose proof (makedirs_frame _ _ _ _ (Sub head name) Hmk (above_sub _ _)) as Hf.
        rewrite leaf_eq. unfold isdir at 1. rewrite Hf, Hd.
        simpl. rewrite Hkeep, Hh. by eexists _, _.
Qed.

(** ** Every way the run can end *)

Lemma main_outcome w : outcome w (main w).
Proof.
  rewrite main_eq.
  destruct (open_r source w) as [[raw|e|] w0] eqn:Hr;
    [| |by apply open_r_no_decode in Hr].
  2:{ pose proof (open_r_same _ _ _ _ Hr) as ->. by apply read_failed. }
  pose proof Hr as [-> [swr Hs]]%open_r_ok.
  destruct (text_of raw) as [data|] eqn:Htext.
  2:{ by eapply decode_failed. }
  assert (source_holds w data) as Hsrc by (by exists swr, raw).
  destruct (makedirs dest_dir true w) as [[[]|e|] w1] eqn:Hm;
    [| |by apply makedirs_no_decode in Hm].
  2:{ by eapply makedirs_failed. }
  destruct (open_w dest w1) as [[f|e|] w2] eqn:Ho;
    [| |by apply open_w_no_decode in Ho].
  2:{ pose proof (open_w_raise_same _ _ _ _ Ho) as ->. by eapply open_failed. }
  pose proof Ho as (-> & r & -> & _)%open_w_ok.
  rewrite (writelines_eq dest _ _ r true []) by (simpl; apply lookup_insert_eq).
  unfold print, set_files. simpl. rewrite insert_insert_eq.
  by eapply written.
Qed.

(** ** Reading, writing, printing *)

Lemma readlines_chars text line c :
  line ∈ readlines text → c ∈ line → c ∈ text.
Proof.
  intros Hl Hc. rewrite <- (concat_readlines text).
  apply list_elem_of_In, in_concat. exists line.
  by split; apply list_elem_of_In.
Qed.

(** X6 — lines in, lines out (lines 3 to 4 and 18 to 19).  The lines
    read from a file in text mode, put end to end, are the text of the
    file with every CR LF and every lone CR turned into a line feed: no
    line read holds a carriage return, and a file without one is read
    as it is.  [writelines] of those lines on a file just opened for
    writing leaves that text in it, nothing added between the lines. *)
Theorem X6_lines_round_trip raw text f w r wr :
  text_of raw = Some text →
  files w !! f = Some (File r wr []) →
  concat (readlines text) = text
  ∧ text = universal_newlines raw
  ∧ (∀ line, line ∈ readlines text → CR ∉ line)
  ∧ (CR ∉ raw → text = raw)
  ∧ writelines f (readlines text) w = (Ok (), set_files <[f := File r wr text]> w).
Proof.
  intros Htext Hf.
  assert (text = universal_newlines raw) as Htr.
  { unfold text_of in Htext. destruct (decodes raw); [|done]. by injection Htext. }
  split_and!.
  - apply concat_readlines.
  - done.
  - intros line Hl Hc. apply (universal_newlines_no_cr raw).
    rewrite <- Htr. by apply (readlines_chars text line).
  - intros Hc. rewrite Htr. by apply universal_newlines_id.
  - rewrite (writelines_eq f _ _ r wr []) by done.
    by rewrite concat_readlines.
Qed.

Lemma X6_lines_round_trip_witness :
  let raw := lit "a" ++ [CR; LF; LF] ++ lit "b  " ++ [CR] ++ lit "no end" in
  let text := lit "a" ++ [LF; LF] ++ lit "b  " ++ [LF] ++ lit "no end" in
  let w := set_files <[dest := File true true []]> example_world in
  text_of raw = Some text
  ∧ files w !! dest = Some (File true true [])
  ∧ readlines text = [lit "a" ++ [LF]; [LF]; lit "b  " ++ [LF]; lit "no end"]
  ∧ concat (readlines text) = text
  ∧ (∀ line, line ∈ readlines text → CR ∉ line)
  ∧ writelines dest (readlines text) w
    = (Ok (), set_files <[dest := File true true text]> w).
Proof.
  intros raw text w.
  assert (text_of raw = Some text) as Htext by reflexivity.
  assert (files w !! dest = Some (File true true [])) as Hf by reflexivity.
  destruct (X6_lines_round_trip raw text dest w true true Htext Hf)
    as (Hcat & _ & Hcr & _ & Hwr).
  split_and!; [exact Htext|exact Hf|vm_compute; reflexivity|exact Hcat
              |exact Hcr|exact Hwr].
Defined.

(** X7 — the completion notice (line 21).  [Done] is printed once, at
    the end of a run that went through, and nothing is printed by a run
    that raised, wherever it raised. *)
Theorem X7_done_printed w :
  match fst (main w) with
  | Ok _ => stdout (snd (main w)) = stdout w ++ ["Done"%string]
  | Raise _ | RaiseUnicodeDecodeError => stdout (snd (main w)) = stdout w
  end.
Proof.
  destruct (main_outcome w)
    as [e Hr|raw Hr Hdec|data e w1 Hs Hm|data e w1 Hs Hm Ho|data w1 r Hs Hm Ho];
    simpl; try done;
    by destruct (makedirs_grows _ _ _ _ Hm) as (-> & _).
Qed.

(** ** When the run goes through, and when not *)

(** X8 — what a run that went through needed (lines 3 to 19).  On a
    tree, whenever the run goes through, the source was a file open to
    reading whose content is text, the directory of the migration file
    was there or could be made, and the migration file was open to
    writing or could be made: without any one of these the run raises. *)
Theorem X8_success_needs w :
  tree (files w) →
  fst (main w) = Ok () →
  (∃ data, source_holds w data)
  ∧ makable (files w) dest_dir = true
  ∧ dest_writable (files w) = true.
Proof.
  intros Ht Hok.
  destruct (main_outcome w)
    as [e Hr|raw Hr Hdec|data e w1 Hs Hm|data e w1 Hs Hm Ho|data w1 r Hs Hm Ho];
    try done.
  split_and!; [by exists data| |].
  - destruct (makable (files w) dest_dir) eqn:E; [done|].
    destruct (makedirs_fails dest_dir w Ht E) as (e & w' & Hf). congruence.
  - destruct (makedirs_grows _ _ _ _ Hm) as (_ & Hsub & _).
    pose proof (makedirs_frame _ _ _ _ dest Hm eq_refl) as Hdest.
    unfold dest_writable. rewrite <- Hdest.
    unfold open_w, raise, throw in Ho.
    destruct (files w1 !! dest) as [[|r0 [] d0]|] eqn:Hd1; try done.
    change dest with (Sub dest_dir "001_initial_schema.sql") in Ho.
    cbv iota in Ho.
    destruct (files w1 !! dest_dir) as [[[]|]|] eqn:Hdd1; try done.
    destruct (files w !! dest_dir) as [[wr|]|] eqn:Hdd; [|done|done].
    pose proof (lookup_weaken _ _ _ _ Hdd Hsub) as Hdd'.
    congruence.
Qed.

Lemma X8_success_needs_witness :
  tree (files example_world)
  ∧ tree (files blocked_world)
  ∧ fst (main example_world) = Ok ()
  ∧ (∃ data, source_holds example_world data)
  ∧ makable (files example_world) dest_dir = true
  ∧ dest_writable (files example_world) = true
  ∧ makable (files blocked_world) dest_dir = false
  ∧ fst (main blocked_world) ≠ Ok ().
Proof.
  assert (tree (files example_world)) as Ht by (split; [reflexivity|compute_done]).
  assert (tree (files blocked_world)) as Hb by (split; [reflexivity|compute_done]).
  assert (fst (main example_world) = Ok ()) as Hok by (vm_compute; reflexivity).
  assert (makable (files blocked_world) dest_dir = false) as Hno by reflexivity.
  destruct (X8_success_needs example_world Ht Hok) as (Hs & Hm & Hw).
  split_and!; [exact Ht|exact Hb|exact Hok|exact Hs|exact Hm|exact Hw|exact Hno|].
  intros Hrun.
  pose proof (proj1 (proj2 (X8_success_needs blocked_world Hb Hrun))) as Hm'.
  rewrite Hno in Hm'. discriminate Hm'.
Defined.

(** X9 — what the run leaves alone (lines 3 to 19).  However the run
    ends, every entry of the file system other than the migration file
    stays as it was; the only entries that can appear are the migration
    file and directories on the way to its directory; the source is
    never changed. *)
Theorem X9_run_frame w :
  (∀ p x, p ≠ dest → files w !! p = Some x → files (snd (main w)) !! p = Some x)
  ∧ (∀ p, p ≠ dest → above p dest_dir = false →
       files (snd (main w)) !! p = files w !! p)
  ∧ files (snd (main w)) !! source = files w !! source.
Proof.
  assert (∀ p, p ≠ dest → above p dest_dir = false →
            files (snd (main w)) !! p = files w !! p) as Hframe.
  { intros p Hp Hab.
    destruct (main_outcome w)
      as [e Hr|raw Hr Hdec|data e w1 Hs Hm|data e w1 Hs Hm Ho|data w1 r Hs Hm Ho];
      cbn [snd files]; try done;
      try (by apply (makedirs_frame _ _ _ _ p Hm)).
    rewrite lookup_insert_ne by done. by apply (makedirs_frame _ _ _ _ p Hm). }
  split_and!; [|exact Hframe|by apply Hframe].
  intros p x Hp Hx.
  destruct (main_outcome w)
      as [e Hr|raw Hr Hdec|data e w1 Hs Hm|data e w1 Hs Hm Ho|data w1 r Hs Hm Ho];
    cbn [snd files]; try done;
    destruct (makedirs_grows _ _ _ _ Hm) as (_ & Hsub & _);
    try (by apply (lookup_weaken _ _ _ _ Hx Hsub)).
  rewrite lookup_insert_ne by done. by apply (lookup_weaken _ _ _ _ Hx Hsub).
Qed.

Lemma X9_run_frame_witness :
  let p := (Root / "home" / "ace")%path in
  p ≠ dest
  ∧ files example_world !! p = Some (Dir true)
  ∧ above p dest_dir = true
  ∧ above source dest_dir = false
  ∧ files (snd (main example_world)) !! p = Some (Dir true)
  ∧ files (snd (main example_world)) !! source = files example_world !! source.
Proof.
  intros p.
  assert (p ≠ dest) as Hp by discriminate.
  assert (files example_world !! p = Some (Dir true)) as Hx by reflexivity.
  assert (above source dest_dir = false) as Hab by reflexivity.
  split_and!; [exact Hp|exact Hx|reflexivity|exact Hab| |].
  - exact (proj1 (X9_run_frame example_world) p _ Hp Hx).
  - exact (proj1 (proj2 (X9_run_frame example_world)) source source_not_dest Hab).
Defined.

(** X10 — the directory cannot be made (line 17).  On a tree where the
    source can be read but the directory of the migration file cannot
    be made, the run ends with the error of [makedirs], which names a
    path on the way to that directory; the migration file is neither
    made nor changed and nothing is printed. *)
Theorem X10_directory_failure w data :
  tree (files w) → source_holds w data →
  makable (files w) dest_dir = false →
  ∃ e, fst (main w) = Raise e
       ∧ above (filename e) dest_dir = true
       ∧ files (snd (main w)) !! dest = files w !! dest
       ∧ stdout (snd (main w)) = stdout w.
Proof.
  intros Ht (swr & raw & Hs & Htext) Hm.
  destruct (makedirs_fails dest_dir w Ht Hm) as (e & w1 & Hmk).
  exists e. rewrite main_eq. unfold open_r. rewrite Hs, Htext, Hmk. cbn [fst snd].
  destruct (makedirs_raise _ _ _ _ Hmk) as [Hab _].
  destruct (makedirs_grows _ _ _ _ Hmk) as (Hout & _).
  split_and!; [done|done| |done].
  by apply (makedirs_frame _ _ _ _ dest Hmk).
Qed.

Lemma X10_directory_failure_witness :
  tree (files blocked_world)
  ∧ source_holds blocked_world (concat example_lines)
  ∧ makable (files blocked_world) dest_dir = false
  ∧ fst (main blocked_world)
    = Raise (mkOSError NotADirectoryError
               (Root / "home" / "ace" / "Projects" / "Study-Sync"
                     / "studysync-backend" / "scripts")%path)
  ∧ ∃ e, fst (main blocked_world) = Raise e
         ∧ above (filename e) dest_dir = true
         ∧ files (snd (main blocked_world)) !! dest = files blocked_world !! dest
         ∧ stdout (snd (main blocked_world)) = stdout blocked_world.
Proof.
  assert (tree (files blocked_world)) as Ht by (split; [reflexivity|compute_done]).
  assert (source_holds blocked_world (concat example_lines)) as Hs
    by holds_by_eval.
  assert (makable (files blocked_world) dest_dir = false) as Hm by reflexivity.
  split_and!; [exact Ht|exact Hs|exact Hm|vm_compute; reflexivity|].
  exact (X10_directory_failure _ _ Ht Hs Hm).
Defined.

(** X11 — the migration file cannot be opened (line 18).  On a tree
    where the source can be read and the directory made, but the
    migration file is a directory, or closed to writing, or missing in a
    directory closed to new entries, the run ends with an error that
    names the migration file; the directory is there by then, the place
    of the file is as it was, and nothing is printed. *)
Theorem X11_open_failure w data :
  tree (files w) → source_holds w data →
  makable (files w) dest_dir = true →
  dest_writable (files w) = false →
  ∃ e, fst (main w) = Raise e
       ∧ filename e = dest
       ∧ isdir (files (snd (main w))) dest_dir = true
       ∧ files (snd (main w)) !! dest = files w !! dest
       ∧ stdout (snd (main w)) = stdout w.
Proof.
  intros Ht (swr & raw & Hs & Htext) Hm Hw.
  destruct (makedirs_ok dest_dir w Ht Hm) as (w1 & Hmk & _ & Hd1 & Hnew).
  destruct (makedirs_grows _ _ _ _ Hmk) as (Hout & Hsub & _).
  pose proof (makedirs_frame _ _ _ _ dest Hmk eq_refl) as Hdest.
  assert (∃ e, open_w dest w1 = (Raise e, w1) ∧ filename e = dest) as (e & Ho & He).
  { unfold dest_writable in Hw. unfold open_w, raise, throw. rewrite Hdest.
    destruct (files w !! dest) as [[|r [] d]|] eqn:Hd; try done;
      try (by eexists).
    change dest with (Sub dest_dir "001_initial_schema.sql") at 1.
    cbv iota. change (Sub dest_dir "001_initial_schema.sql") with dest.
    destruct (files w !! dest_dir) as [[[]|]|] eqn:Hdd; try done.
    rewrite (lookup_weaken _ _ _ _ Hdd Hsub). by eexists. }
  exists e. rewrite main_eq. unfold open_r. rewrite Hs, Htext, Hmk, Ho. cbn [fst snd].
  by split_and!.
Qed.

Lemma X11_open_failure_witness :
  tree (files sealed_world)
  ∧ source_holds sealed_world (concat example_lines)
  ∧ makable (files sealed_world) dest_dir = true
  ∧ dest_writable (files sealed_world) = false
  ∧ fst (main sealed_world) = Raise (mkOSError PermissionError dest)
  ∧ ∃ e, fst (main sealed_world) = Raise e
         ∧ filename e = dest
         ∧ isdir (files (snd (main sealed_world))) dest_dir = true
         ∧ files (snd (main sealed_world)) !! dest = files sealed_world !! dest
         ∧ stdout (snd (main sealed_world)) = stdout sealed_world.
Proof.
  assert (tree (files sealed_world)) as Ht by (split; [reflexivity|compute_done]).
  assert (source_holds sealed_world (concat example_lines)) as Hs
    by holds_by_eval.
  assert (makable (files sealed_world) dest_dir = true) as Hm by reflexivity.
  assert (dest_writable (files sealed_world) = false) as Hw by reflexivity.
  split_and!; [exact Ht|exact Hs|exact Hm|exact Hw|vm_compute; reflexivity|].
  exact (X11_open_failure _ _ Ht Hs Hm Hw).
Defined.

(** X12 — written over, not onto (lines 18 and 19).  After any run that
    went through, the migration file holds the lines scanned from the
    source and nothing of what it held before; it is open to writing,
    and open to reading as it was when it was there already. *)
Theorem X12_overwrite w w' :
  main w = (Ok (), w') →
  ∃ data r,
    source_holds w data
    ∧ files w' !! dest = Some (File r true (concat (scan (readlines data))))
    ∧ (∀ r0 wr0 old, files w !! dest = Some (File r0 wr0 old) →
         r = r0 ∧ wr0 = true).
Proof.
  intros Hrun.
  destruct (main_done _ _ Hrun) as (data & w1 & r & Hs & Hm & Hprev & ->).
  exists data, r. split_and!; [done|cbn [files]; apply lookup_insert_eq|].
  intros r0 wr0 old Hold.
  rewrite <- (makedirs_frame _ _ _ _ dest Hm eq_refl) in Hold.
  destruct Hprev as [[Hn _]|[old' Hp]]; [congruence|].
  rewrite Hp in Hold. by injection Hold as -> -> _.
Qed.

Lemma X12_overwrite_witness :
  let w := set_files <[dest := File false true (lit "old text")]>
             (snd (main example_world)) in
  main w = (Ok (), snd (main w))
  ∧ files w !! dest = Some (File false true (lit "old text"))
  ∧ files (snd (main w)) !! dest
    = Some (File false true (lit "CREATE TABLE t (id INT);" ++ [LF]))
  ∧ ∃ data r,
      source_holds w data
      ∧ files (snd (main w)) !! dest
        = Some (File r true (concat (scan (readlines data))))
      ∧ (∀ r0 wr0 old, files w !! dest = Some (File r0 wr0 old) →
           r = r0 ∧ wr0 = true).
Proof.
  intros w.
  assert (main w = (Ok (), snd (main w))) as Hrun by (vm_compute; reflexivity).
  split_and!; [exact Hrun|reflexivity|vm_compute; reflexivity|].
  exact (X12_overwrite _ _ Hrun).
Defined.
